(** * Spectral-subtraction denoiser (app.py): a shallow embedding

    The development follows [app.py]:

    - [Py]: the Python string and path helpers the handlers call
      ([str.lower], [in], [str.rsplit], [os.path.basename],
      [os.path.splitext], [os.path.join]).
    - [Np]: NumPy values.  A float is an exact rational or NaN, so that the
      one special value the code can produce by itself (the mean of an
      empty slice) is represented; rounding, overflow and infinities are
      outside the model.  A spectrogram is a list of rows, one row per
      frequency bin and one column per frame, as librosa lays it out.
    - [AudioBackend]: the library calls ([librosa.load], [librosa.stft],
      [librosa.magphase], [librosa.istft], [soundfile.write]) as an
      interface; their documented contracts are separate predicates.
    - [App]: [ai_denoising_process], [allowed_file] and [upload_file]. *)

From Stdlib Require Import Floats Uint63.
From Stdlib Require Import Ascii String QArith Qcanon Qround.
From Stdlib.Strings Require Import Byte.
From stdpp Require Import base option list strings gmap.

Local Open Scope string_scope.

(** ** Exceptions *)

(** A Python call either returns a value or raises; [Raise] carries the text
    that [str(e)] gives. *)
Inductive result (A : Type) : Type :=
  | Ok (a : A)
  | Raise (msg : string).
Arguments Ok {A} a.
Arguments Raise {A} msg.

Definition bind {A B : Type} (m : result A) (k : A → result B) : result B :=
  match m with
  | Ok a => k a
  | Raise e => Raise e
  end.

Notation "x ←! m ; k" := (bind m (fun x => k))
  (at level 20, m at level 100, k at level 200, right associativity,
   only parsing).
Notation "' p ←! m ; k" := (bind m (fun p => k))
  (at level 20, p pattern, m at level 100, k at level 200,
   right associativity, only parsing).

(** ** Python strings and paths *)
Module Py.

(** [c.lower()] on one character: the ASCII capitals move by 32, every
    other byte stays. *)
Definition ascii_lower (c : ascii) : ascii :=
  let n := nat_of_ascii c in
  if (65 <=? n)%nat && (n <=? 90)%nat then ascii_of_nat (n + 32) else c.

(** [s.lower()] *)
Fixpoint lower (s : string) : string :=
  match s with
  | EmptyString => EmptyString
  | String c s' => String (ascii_lower c) (lower s')
  end.

(** [c in s] for a one-character [c]. *)
Fixpoint contains (c : ascii) (s : string) : bool :=
  match s with
  | EmptyString => false
  | String a s' => if decide (a = c) then true else contains c s'
  end.

(** The split of [s] at the last occurrence of [c]: the text before it and
    the text after it; [None] when [c] does not occur. *)
Fixpoint rpartition (c : ascii) (s : string) : option (string * string) :=
  match s with
  | EmptyString => None
  | String a s' =>
      match rpartition c s' with
      | Some (h, t) => Some (String a h, t)
      | None => if decide (a = c) then Some (EmptyString, s') else None
      end
  end.

(** [s.rsplit(c, 1)] *)
Definition rsplit1 (c : ascii) (s : string) : list string :=
  match rpartition c s with
  | Some (h, t) => [h; t]
  | None => [s]
  end.

(** [l[i]], raising [IndexError] out of range. *)
Definition getitem {A : Type} (l : list A) (i : nat) : result A :=
  match l !! i with
  | Some x => Ok x
  | None => Raise "list index out of range"
  end.

(** [os.path.basename(p)]: what follows the last slash. *)
Definition basename (p : string) : string :=
  match rpartition "/" p with
  | Some (_, t) => t
  | None => p
  end.

Fixpoint all_dots (s : string) : bool :=
  match s with
  | EmptyString => true
  | String a s' => if decide (a = "."%char) then all_dots s' else false
  end.

(** [os.path.splitext(p)] for a [p] without a slash (it is applied to a
    basename): the extension starts at the last dot, unless only dots
    stand before it. *)
Definition splitext (p : string) : string * string :=
  match rpartition "." p with
  | Some (h, t) => if all_dots h then (p, EmptyString) else (h, String "." t)
  | None => (p, EmptyString)
  end.

(** [os.path.join(d, name)] for a relative [name]. *)
Definition path_join (d name : string) : string := d +:+ "/" +:+ name.

End Py.

(** ** NumPy values *)
Module Np.

Local Open Scope Qc_scope.

(** A NumPy float: a rational number or NaN.  The arithmetic below is
    exact where float32 rounds, so an equation between computed values
    holds of the model only.  What is stated of the code about values is
    what rounding keeps: which operations are applied to which entries,
    shapes, signs, clamping to zero, NaN, and bounds that a monotone
    rounding preserves. *)
Inductive npfloat : Type :=
  | Num (q : Qc)
  | NaN.

Definition Qcmax (x y : Qc) : Qc :=
  match x ?= y with
  | Lt => y
  | _ => x
  end.

Definition lift2 (f : Qc → Qc → Qc) (a b : npfloat) : npfloat :=
  match a, b with
  | Num x, Num y => Num (f x y)
  | _, _ => NaN
  end.

Definition fadd : npfloat → npfloat → npfloat := lift2 Qcplus.
Definition fsub : npfloat → npfloat → npfloat := lift2 Qcminus.
Definition fmul : npfloat → npfloat → npfloat := lift2 Qcmult.
(** [np.maximum(a, b)]: NaN when either argument is. *)
Definition maximum : npfloat → npfloat → npfloat := lift2 Qcmax.

Definition of_nat (n : nat) : Qc := Q2Qc (inject_Z (Z.of_nat n)).

(** The Python float [1.5]. *)
Definition one_and_half : npfloat := Num (Q2Qc (3 # 2)).

(** [np.sum] of one row. *)
Definition np_sum (row : list npfloat) : npfloat :=
  foldr fadd (Num 0) row.

(** [np.mean] of one row: sum over count; the mean of an empty slice is
    NaN (NumPy warns and does not raise). *)
Definition np_mean (row : list npfloat) : npfloat :=
  match row with
  | [] => NaN
  | _ => fmul (np_sum row) (Num (/ of_nat (length row)))
  end.

(** A complex number, by its real and imaginary parts. *)
Record complex : Type := Complex { re : npfloat; im : npfloat }.

Definition cmul (z w : complex) : complex :=
  {| re := fsub (fmul (re z) (re w)) (fmul (im z) (im w));
     im := fadd (fmul (re z) (im w)) (fmul (im z) (re w)) |}.

(** A real array entry promoted to complex, as NumPy does before a mixed
    multiplication. *)
Definition of_real (r : npfloat) : complex := {| re := r; im := Num 0 |}.

(** Rows are frequency bins, columns are frames. *)
Abbreviation matrix A := (list (list A)).

(** [M.shape[1]] *)
Definition shape1 {A : Type} (M : matrix A) : nat :=
  match M with
  | [] => 0%nat
  | row :: _ => length row
  end.

(** [M[:, :k]] *)
Definition columns_upto {A : Type} (k : nat) (M : matrix A) : matrix A :=
  take k <$> M.

(** [np.mean(M, axis=1, keepdims=True)]: one mean per row (a column). *)
Definition mean_axis1 (M : matrix npfloat) : list npfloat :=
  np_mean <$> M.

(** [M - col], the column broadcast along the frames. *)
Definition sub_column (M : matrix npfloat) (col : list npfloat)
  : matrix npfloat :=
  zip_with (fun (row : list npfloat) a => (fun m => fsub m a) <$> row) M col.

(** [np.maximum(0, M)] *)
Definition maximum0 (M : matrix npfloat) : matrix npfloat :=
  (fun row : list npfloat => maximum (Num 0) <$> row) <$> M.

(** [R * P] for a real [R] and a complex [P], entry by entry. *)
Definition mul_real_complex (R : matrix npfloat) (P : matrix complex)
  : matrix complex :=
  zip_with (zip_with (fun r p => cmul (of_real r) p)) R P.

End Np.

(** ** The audio libraries *)

Import Np.

(** What the program asks of librosa and soundfile.  [audioread] decodes a
    file's bytes to mono samples at the file's own rate; [resample y a b]
    converts from rate [a] to rate [b]; [librosa_stft y n_fft hop] and
    [librosa_istft D hop] are the transforms; [magphase1] is
    [librosa.magphase] on one entry; [wav_encode y sr] is the container
    [soundfile.write] produces for samples [y] at rate [sr]. *)
Class AudioBackend : Type := {
  audioread : list byte → result (list npfloat * N);
  resample : list npfloat → N → N → list npfloat;
  librosa_stft : list npfloat → nat → nat → result (list (list complex));
  magphase1 : complex → npfloat * complex;
  librosa_istft : list (list complex) → nat → result (list npfloat);
  wav_encode : list npfloat → N → result (list byte);
}.

(** [librosa.magphase(D)]: the magnitudes and the phase factors of [D]. *)
Definition librosa_magphase `{B : AudioBackend} (D : list (list complex))
  : list (list npfloat) * list (list complex) :=
  ((fun row : list complex => (fun z => fst (magphase1 z)) <$> row) <$> D,
   (fun row : list complex => (fun z => snd (magphase1 z)) <$> row) <$> D).

(** librosa's documented shapes with the default [center=True]: the forward
    transform returns [1 + n_fft/2] bins and [1 + len(y) // hop] frames, and
    the inverse transform without a [length] argument returns
    [hop * (frames - 1)] samples. *)
Definition framing_contract `{B : AudioBackend} : Prop :=
  (∀ y n_fft hop D,
      librosa_stft y n_fft hop = Ok D →
      length D = (1 + n_fft / 2)%nat ∧
      Forall (fun row => length row = (1 + length y / hop)%nat) D) ∧
  (∀ D hop y',
      librosa_istft D hop = Ok y' → length y' = (hop * (shape1 D - 1))%nat).


(** ** The application *)
Module App.

Import Py.

Definition UPLOAD_FOLDER : string := "uploads".
Definition ALLOWED_EXTENSIONS : gset string :=
  {[ "wav"; "mp3"; "flac"; "ogg" ]}.

(** An uploaded file as werkzeug hands it over. *)
Record FileStorage : Type := { filename : string; stream : list byte }.

(** [request.files] *)
Record request : Type := { files : gmap string FileStorage }.

(** The state the handlers act on: the files on disk by path, and the
    messages flashed so far (message, category).  A key of [fs] is the
    canonical spelling of a path ([canonical_path] below), so that two keys
    name the same file exactly when they are equal; links are outside the
    model. *)
Record world : Type := {
  fs : gmap string (list byte);
  flashes : list (string * string);
}.

Inductive response : Type :=
  | RedirectIndex
  | RedirectResults (noisy_file denoised_file : string).

(** [flash(message, category)] *)
Definition flash (w : world) (message category : string) : world :=
  {| fs := fs w; flashes := flashes w ++ [(message, category)] |}.

(** [file.save(path)] *)
Definition save (w : world) (file : FileStorage) (path : string) : world :=
  {| fs := <[path := stream file]> (fs w); flashes := flashes w |}.

(** [shutil.copy(src, dst)]: raises when [src] cannot be read and when
    both names are the same file.  The same-file test compares the two
    spellings, which decides it for canonical paths only: for another
    spelling of [dst] the library raises [SameFileError] where this
    function copies. *)
Definition shutil_copy (w : world) (src dst : string) : result world :=
  match fs w !! src with
  | None => Raise "No such file or directory"
  | Some data =>
      if decide (src = dst) then Raise "are the same file"
      else Ok {| fs := <[dst := data]> (fs w); flashes := flashes w |}
  end.

Section Pipeline.
Context `{B : AudioBackend}.

(** [librosa.load(path, sr=sr)]: decode, resample to [sr], and return
    the samples with the rate asked for. *)
Definition librosa_load (w : world) (path : string) (sr : N)
  : result (list npfloat * N) :=
  match fs w !! path with
  | None => Raise "No such file or directory"
  | Some data =>
      '(y0, sr_native) ←! audioread data;
      Ok (resample y0 sr_native sr, sr)
  end.

(** [sf.write(path, data, sr)] *)
Definition sf_write (w : world) (path : string) (data : list npfloat)
    (sr : N) : result world :=
  encoded ←! wav_encode data sr;
  Ok {| fs := <[path := encoded]> (fs w); flashes := flashes w |}.

Definition N_FFT : nat := 1024.
Definition HOP_LENGTH : nat := 256.

(** [int(n * 0.1)].  The double nearest to 0.1 exceeds it by the factor
    [1 + 2^-54], so for a multiple [n = 10 k] the product rounds to [k]
    and otherwise it stays a tenth away from any integer: the truncation is
    the integer quotient by ten ([int_tenth_double] checks it in binary64
    for the frame counts below [2^20]). *)
Definition int_tenth (n : nat) : nat := n / 10.

(** Line 60: [magnitude[:, :int(magnitude.shape[1] * 0.1)]] *)
Definition noise_frames (magnitude : list (list npfloat))
  : list (list npfloat) :=
  columns_upto (int_tenth (shape1 magnitude)) magnitude.

(** Line 61: [np.mean(noise_frames, axis=1, keepdims=True)] *)
Definition noise_magnitude_avg (magnitude : list (list npfloat))
  : list npfloat :=
  mean_axis1 (noise_frames magnitude).

(** Line 65: [np.maximum(0, magnitude - noise_magnitude_avg * 1.5)] *)
Definition clean_magnitude (magnitude : list (list npfloat))
    (noise_avg : list npfloat) : list (list npfloat) :=
  maximum0
    (sub_column magnitude ((fun a => fmul a one_and_half) <$> noise_avg)).

(** Line 68: [clean_magnitude * phase] *)
Definition stft_clean (clean : list (list npfloat))
    (phase : list (list complex)) : list (list complex) :=
  mul_real_complex clean phase.

(** Steps 3 to 6 on a spectrogram. *)
Definition denoise_spectrum (stft : list (list complex))
  : list (list complex) :=
  let '(magnitude, phase) := librosa_magphase stft in
  let noise_avg := noise_magnitude_avg magnitude in
  stft_clean (clean_magnitude magnitude noise_avg) phase.

(** Steps 2 to 7: from the decoded samples to the samples written. *)
Definition denoise_samples (y : list npfloat) : result (list npfloat) :=
  stft ←! librosa_stft y N_FFT HOP_LENGTH;
  librosa_istft (denoise_spectrum stft) HOP_LENGTH.

(** The name bound before the [try]. *)
Definition failed_filepath (input_filepath uuid : string) : string :=
  let '(_, ext) := splitext (basename input_filepath) in
  path_join UPLOAD_FOLDER ("failed_denoise_" +:+ uuid +:+ ext).

(** The name bound at step 8. *)
Definition clean_filepath (uuid : string) : string :=
  path_join UPLOAD_FOLDER ("denoised_" +:+ uuid +:+ "_clean.wav").

(** The [except] clause, entered with the current [denoised_filepath].
    The flashed message stays when the copy itself raises. *)
Definition fallback (w : world) (input_filepath denoised_filepath : string)
    (e : string) : result string * world :=
  let w1 := flash w ("Processing failed: " +:+ e) "error" in
  match shutil_copy w1 input_filepath denoised_filepath with
  | Ok w2 => (Ok denoised_filepath, w2)
  | Raise e' => (Raise e', w1)
  end.

(** [ai_denoising_process(input_filepath)]: what it returns or raises,
    and the state it leaves.  [uuid1] and [uuid2] are the values of the
    two [uuid.uuid4()] calls in the order of the text.  An exception of
    steps 1 to 7 reaches the handler with the name bound before the
    [try]; one of [sf.write] reaches it after the rebinding of step 8. *)
Definition ai_denoising_process (w : world)
    (input_filepath uuid1 uuid2 : string) : result string * world :=
  let denoised_filepath := failed_filepath input_filepath uuid1 in
  match
    ('(y, sr) ←! librosa_load w input_filepath 16000%N;
     y_clean ←! denoise_samples y;
     Ok (y_clean, sr))
  with
  | Raise e => fallback w input_filepath denoised_filepath e
  | Ok (y_clean, sr) =>
      let denoised_filepath := clean_filepath uuid2 in
      match sf_write w denoised_filepath y_clean sr with
      | Ok w' => (Ok denoised_filepath, w')
      | Raise e => fallback w input_filepath denoised_filepath e
      end
  end.

(** [allowed_file(filename)]; the [and] evaluates the index only when
    the dot is there. *)
Definition allowed_file (filename : string) : result bool :=
  if contains "." filename then
    ext ←! getitem (rsplit1 "." filename) 1;
    Ok (bool_decide (lower ext ∈ ALLOWED_EXTENSIONS))
  else Ok false.

(** The message of the outer [except] of [upload_file]. *)
Definition processing_error (e : string) : string :=
  "Error processing file: " +:+ e +:+
  ". Please ensure it is a valid audio file.".

(** [upload_file()]: the response, or the exception that leaves the
    handler, and the state.  [uuid0] names the saved upload; [uuid1]
    and [uuid2] go to [ai_denoising_process].  A [FileStorage] is true
    when its filename is not empty. *)
Definition upload_file (w : world) (req : request)
    (uuid0 uuid1 uuid2 : string) : result response * world :=
  match files req !! "audioFile" with
  | None => (Ok RedirectIndex, flash w "No file part" "error")
  | Some file =>
      if decide (filename file = "") then
        (Ok RedirectIndex, flash w "No selected file" "error")
      else
        match
          (if decide (filename file = "") then Ok false
           else allowed_file (filename file))
        with
        | Raise e => (Raise e, w)
        | Ok false =>
            (Ok RedirectIndex,
             flash w ("Invalid file type. Please upload a common audio " +:+
                      "file type (wav, mp3, flac, ogg).") "error")
        | Ok true =>
            match getitem (rsplit1 "." (filename file)) 1 with
            | Raise e => (Ok RedirectIndex, flash w (processing_error e) "error")
            | Ok e1 =>
                let file_extension := lower e1 in
                let unique_filename := uuid0 +:+ "." +:+ file_extension in
                let noisy_filepath := path_join UPLOAD_FOLDER unique_filename in
                let w1 := save w file noisy_filepath in
                match ai_denoising_process w1 noisy_filepath uuid1 uuid2 with
                | (Ok denoised_filepath, w2) =>
                    (Ok (RedirectResults (basename noisy_filepath)
                                         (basename denoised_filepath)), w2)
                | (Raise e, w2) =>
                    (Ok RedirectIndex, flash w2 (processing_error e) "error")
                end
            end
        end
  end.

End Pipeline.

End App.

(** ** Vocabulary of the statements *)

Import Py App.

(** The entry of a spectrogram at bin [i] and frame [j]. *)
Definition entry {A : Type} (M : list (list A)) (i j : nat) : option A :=
  M !! i ≫= (fun row : list A => row !! j).

Definition is_num (x : npfloat) : Prop := ∃ q : Qc, x = Num q.

Definition nonneg (x : npfloat) : Prop := ∃ q : Qc, x = Num q ∧ (0 <= q)%Qc.

(** [u] is a phase of [z]: a factor of modulus one with [z = r * u] for
    some real [r >= 0]. *)
Definition has_phase (z u : complex) : Prop :=
  ∃ r a b : Qc,
    (0 <= r)%Qc ∧ u = Complex (Num a) (Num b) ∧ (a * a + b * b = 1)%Qc ∧
    z = Complex (Num (r * a)%Qc) (Num (r * b)%Qc).

(** [int(n * 0.1)] in binary64, against [n // 10]: the product lies in
    [[n // 10, n // 10 + 1)], so its truncation is [n // 10]. *)
Definition double_tenth_agrees (n : int) : bool :=
  let x := PrimFloat.mul (PrimFloat.of_uint63 n) 0x1.999999999999ap-4%float in
  let k := Uint63.div n 10%uint63 in
  andb (PrimFloat.leb (PrimFloat.of_uint63 k) x)
       (PrimFloat.ltb x (PrimFloat.of_uint63 (Uint63.add k 1%uint63))).

(** The same for every [n] below [count]. *)
Definition double_tenth_upto (count : positive) : bool :=
  snd (Pos.iter
         (fun st : int * bool =>
            (Uint63.add (fst st) 1%uint63,
             andb (snd st) (double_tenth_agrees (fst st))))
         (0%uint63, true) count).

(** The noise profile in the words of the specification: the mean over the
    first [max(1, ceil(0.1 * frameCount))] frames. *)
Definition spec_noise_frame_count (frame_count : nat) : nat :=
  Nat.max 1 ((frame_count + 9) / 10).

Definition spec_noise_profile (magnitude : list (list npfloat))
  : list npfloat :=
  mean_axis1
    (columns_upto (spec_noise_frame_count (shape1 magnitude)) magnitude).

(** [ext] is the final extension of [name]: what follows its last dot. *)
Definition final_extension (name ext : string) : Prop :=
  ∃ stem, name = stem +:+ "." +:+ ext ∧ contains "." ext = false.

(** The upload condition in the words of the claim. *)
Definition accepted (name : string) : Prop :=
  name ≠ "" ∧ contains "." name = true ∧
  ∃ ext, final_extension name ext ∧ lower ext ∈ ALLOWED_EXTENSIONS.

(** The pieces of [s] between the occurrences of [c] ([s.split(c)]). *)
Fixpoint split_on (c : ascii) (s : string) : list string :=
  match s with
  | EmptyString => [EmptyString]
  | String a s' =>
      if decide (a = c) then EmptyString :: split_on c s'
      else match split_on c s' with
           | seg :: rest => String a seg :: rest
           | [] => [String a EmptyString]
           end
  end.

(** A path component that names an entry of its directory. *)
Definition real_name (seg : string) : bool :=
  negb (bool_decide (seg = "" ∨ seg = "." ∨ seg = "..")).

(** A relative path in the spelling that [os.path.normpath] leaves as it
    is: components separated by single slashes, none of them empty, [.] or
    [..].  Two such paths name the same file exactly when they are the
    same text. *)
Definition canonical_path (p : string) : bool :=
  forallb real_name (split_on "/"%char p).

(** The text of a UUID, as [str(uuid.uuid4())] prints it: 36 characters,
    lower-case hexadecimal digits and hyphens. *)
Definition uuid_char (c : ascii) : bool :=
  let n := nat_of_ascii c in
  ((48 <=? n)%nat && (n <=? 57)%nat) || ((97 <=? n)%nat && (n <=? 102)%nat)
  || (n =? 45)%nat.

Fixpoint all_chars (p : ascii → bool) (s : string) : bool :=
  match s with
  | EmptyString => true
  | String c s' => p c && all_chars p s'
  end.

Definition uuid_text (u : string) : bool :=
  (String.length u =? 36)%nat && all_chars uuid_char u.

(** [upload_file] went through saving and processing: the upload is on disk
    under [noisy], [ai_denoising_process] ran on it and returned [denoised],
    and the response points at both. *)
Definition saved_and_processed `{B : AudioBackend} (w : world) (file : FileStorage)
    (uuid1 uuid2 : string) (out : result response * world) : Prop :=
  ∃ noisy denoised w',
    let w1 := save w file noisy in
    fs w1 !! noisy = Some (stream file) ∧
    ai_denoising_process w1 noisy uuid1 uuid2 = (Ok denoised, w') ∧
    out = (Ok (RedirectResults (basename noisy) (basename denoised)), w').


(** ** A backend to run the model on

    Exact on small inputs and shaped as librosa documents: one sample per
    byte, no change of rate content, a spectrogram of [1 + n_fft/2] equal
    rows whose frame [t] holds the sample at [t * hop] on the real axis,
    magnitudes and signs of real entries, [hop * (frames - 1)] output
    samples, and a container of two rate bytes followed by one byte per
    sample. *)
Module Fixture.

Local Open Scope Qc_scope.

Definition sample_of_byte (b : byte) : npfloat :=
  Num (of_nat (Byte.to_nat b)).

Definition byte_of_nat (n : nat) : byte :=
  default x00 (Byte.of_nat (n mod 256)).

Definition byte_of_sample (x : npfloat) : byte :=
  match x with
  | Num q => byte_of_nat (Z.to_nat (Qfloor q))
  | NaN => x00
  end.

Definition finite (x : npfloat) : bool :=
  match x with
  | Num _ => true
  | NaN => false
  end.

Definition decode (data : list byte) : result (list npfloat * N) :=
  match data with
  | [] => Raise "Format not recognised"
  | _ => Ok (sample_of_byte <$> data, 8000%N)
  end.

Definition frame_entry (y : list npfloat) (hop t : nat) : complex :=
  of_real (default (Num 0) (y !! (t * hop)%nat)).

Definition forward (y : list npfloat) (n_fft hop : nat)
  : result (list (list complex)) :=
  if forallb finite y then
    Ok (replicate (1 + n_fft / 2)
          (frame_entry y hop <$> seq 0 (1 + length y / hop)))
  else Raise "Audio buffer is not finite everywhere".

Definition Qcabs (q : Qc) : Qc := Qcmax q (- q).
Definition Qcsign (q : Qc) : Qc :=
  match q ?= 0 with
  | Lt => - (1)
  | _ => 1
  end.

Definition polar (z : complex) : npfloat * complex :=
  match z with
  | Complex (Num a) (Num b) =>
      if Qc_eq_bool b 0 then (Num (Qcabs a), Complex (Num (Qcsign a)) (Num 0))
      else (NaN, z)
  | _ => (NaN, z)
  end.

Definition inverse (D : list (list complex)) (hop : nat)
  : result (list npfloat) :=
  Ok ((fun n : nat =>
         default (Num 0) (re <$> entry D 0 (n / hop)%nat))
        <$> seq 0 (hop * (shape1 D - 1))).

Definition encode (y : list npfloat) (sr : N) : result (list byte) :=
  Ok (byte_of_nat (N.to_nat (sr / 256)) :: byte_of_nat (N.to_nat sr)
      :: (byte_of_sample <$> y)).

#[local] Instance backend : AudioBackend := {|
  audioread := decode;
  resample := fun y _ _ => y;
  librosa_stft := forward;
  magphase1 := polar;
  librosa_istft := inverse;
  wav_encode := encode;
|}.

(** Two bins by three frames. *)
Definition small_stft : list (list complex) :=
  [ [ of_real (Num (of_nat 4)); of_real (Num (of_nat 1)); of_real (Num 0) ];
    [ of_real (Num (- of_nat 2)); of_real (Num (of_nat 6)); of_real (Num (of_nat 3)) ] ].

Definition small_noise : list npfloat := [ Num (of_nat 2); Num 0 ].

(** One bin by fifteen frames. *)
Definition fifteen_frames : list (list npfloat) :=
  [ Num (of_nat 2) :: Num (of_nat 4) :: replicate 13 (Num 0) ].

(** One bin by twenty frames. *)
Definition twenty_frames : list (list npfloat) :=
  [ Num (of_nat 2) :: Num (of_nat 4) :: replicate 18 (Num 0) ].

Definition disk (n : nat) : world :=
  {| fs := {[ "uploads/in.wav" := replicate n x01 ]}; flashes := [] |}.

(** A request that submits [data] under the filename [name]. *)
Definition submit (name : string) (data : list byte) : request :=
  {| files := {[ "audioFile" := {| filename := name; stream := data |} ]} |}.

Definition uuid_a : string := "123e4567-e89b-12d3-a456-426614174000".
Definition uuid_b : string := "0b9a2c5e-7f41-4d3a-9c68-5e2f1a7d3b90".


End Fixture.

(** ** The pages and the download route *)

(** What a view function answers: [index.html] rendered with the two
    template variables, or a redirect to the index. *)
Inductive view : Type :=
  | Page (noisy_file denoised_file : option string)
  | ToIndex.

(** [index()]: the template without variables. *)
Definition index : view := Page None None.

(** Python truth of [request.args.get(key)]: [None] and the empty string
    are false. *)
Definition truthy (v : option string) : bool :=
  match v with
  | Some (String _ _) => true
  | _ => false
  end.

(** [results()] on the query arguments of the request. *)
Definition results (args : gmap string string) : view :=
  let noisy_file := args !! "noisy_file" in
  let denoised_file := args !! "denoised_file" in
  if negb (truthy noisy_file) || negb (truthy denoised_file) then ToIndex
  else Page noisy_file denoised_file.

(** The request a browser makes after a redirect of [upload_file]:
    [url_for('results', noisy_file=..., denoised_file=...)] carries the two
    names as query arguments, [url_for('index')] carries none. *)
Definition follow (r : response) : view :=
  match r with
  | RedirectIndex => index
  | RedirectResults noisy_file denoised_file =>
      results {[ "noisy_file" := noisy_file; "denoised_file" := denoised_file ]}
  end.

(** What the download route answers: the bytes of a file, or 404. *)
Inductive served : Type :=
  | Sent (data : list byte)
  | NotFound.

(** [uploaded_file(filename)], that is
    [send_from_directory(UPLOAD_FOLDER, filename)]: the route takes one path
    segment, [..] is refused by the safe join and [.] names the folder
    itself; any other name is looked up under the folder. *)
Definition uploaded_file (w : world) (filename : string) : served :=
  if contains "/" filename || bool_decide (filename = "..")
     || bool_decide (filename = ".")
  then NotFound
  else
    match fs w !! path_join UPLOAD_FOLDER filename with
    | Some data => Sent data
    | None => NotFound
    end.

(** Closed goals over rationals: evaluate, then compare canonical forms. *)
Ltac qc_closed :=
  vm_compute;
  repeat first
    [ reflexivity
    | match goal with
      | |- @eq Qc _ _ => apply Qc_is_canon; reflexivity
      | |- _ → False => discriminate
      | |- _ = _ => f_equal
      end ].

(** * Properties *)

(** ** Arrays, entry by entry *)

Section Entries.
Context {A B C : Type}.

Lemma entry_fmap (f : A → B) (M : list (list A)) i j :
  entry ((fun row : list A => f <$> row) <$> M) i j = f <$> entry M i j.
Proof.
  unfold entry. rewrite list_lookup_fmap.
  destruct (M !! i) as [row|]; simpl; [apply list_lookup_fmap | done].
Qed.

Lemma entry_zip_with (f : A → B → C) (M : list (list A))
    (N : list (list B)) i j :
  entry (zip_with (zip_with f) M N) i j
  = (x ← entry M i j; y ← entry N i j; Some (f x y)).
Proof.
  unfold entry. rewrite lookup_zip_with.
  destruct (M !! i) as [r|]; simpl; [|done].
  destruct (N !! i) as [s|]; simpl.
  - apply lookup_zip_with.
  - by destruct (r !! j).
Qed.

Lemma Forall_entry (P : A → Prop) (M : list (list A)) :
  Forall (Forall P) M ↔ ∀ i j x, entry M i j = Some x → P x.
Proof.
  unfold entry. rewrite Forall_lookup. split.
  - intros HM i j x Hx. destruct (M !! i) as [row|] eqn:Hi; [|done].
    simpl in Hx. specialize (HM i row Hi).
    rewrite Forall_lookup in HM. eauto.
  - intros HM i row Hi. rewrite Forall_lookup. intros j x Hj.
    apply (HM i j). by rewrite Hi.
Qed.

Lemma shape1_fmap (f : A → B) (M : list (list A)) :
  shape1 ((fun row : list A => f <$> row) <$> M) = shape1 M.
Proof. destruct M; simpl; [done | apply length_fmap]. Qed.
End Entries.

Lemma entry_sub_column (M : list (list npfloat)) (col : list npfloat) i j :
  entry (sub_column M col) i j
  = (m ← entry M i j; a ← col !! i; Some (fsub m a)).
Proof.
  unfold entry, sub_column. rewrite lookup_zip_with.
  destruct (M !! i) as [row|]; simpl; [|done].
  destruct (col !! i) as [a|]; simpl.
  - rewrite list_lookup_fmap. by destruct (row !! j).
  - by destruct (row !! j).
Qed.

Lemma entry_clean_magnitude (magnitude : list (list npfloat))
    (noise_avg : list npfloat) i j :
  entry (clean_magnitude magnitude noise_avg) i j
  = (m ← entry magnitude i j; a ← noise_avg !! i;
     Some (maximum (Num 0%Qc) (fsub m (fmul a one_and_half)))).
Proof.
  unfold clean_magnitude, maximum0.
  rewrite entry_fmap, entry_sub_column, list_lookup_fmap.
  destruct (entry magnitude i j); simpl; [|done].
  by destruct (noise_avg !! i).
Qed.

Lemma entry_magnitude `{B : AudioBackend} (stft : list (list complex)) i j :
  entry (librosa_magphase stft).1 i j
  = (fun z => (magphase1 z).1) <$> entry stft i j.
Proof. apply entry_fmap. Qed.

Lemma entry_phase `{B : AudioBackend} (stft : list (list complex)) i j :
  entry (librosa_magphase stft).2 i j
  = (fun z => (magphase1 z).2) <$> entry stft i j.
Proof. apply entry_fmap. Qed.

(** ** The arithmetic of one entry *)

Section Scalars.
Local Open Scope Qc_scope.

Lemma Qcmax_l (x y : Qc) : x <= Qcmax x y.
Proof.
  unfold Qcmax. destruct (x ?= y) eqn:E; try apply Qcle_refl.
  apply Qclt_le_weak. by apply Qclt_alt.
Qed.

Lemma Qcmax_r (x y : Qc) : y <= Qcmax x y.
Proof.
  unfold Qcmax. destruct (x ?= y) eqn:E.
  - apply Qceq_alt in E. subst. apply Qcle_refl.
  - apply Qcle_refl.
  - apply Qclt_le_weak. by apply Qcgt_alt.
Qed.

Lemma Qcmax_cases (x y : Qc) : Qcmax x y = x ∨ Qcmax x y = y.
Proof. unfold Qcmax. destruct (x ?= y); auto. Qed.


(** The subtraction of line 65 on numbers. *)
Lemma subtract_num (m a : Qc) :
  maximum (Num 0) (fsub (Num m) (fmul (Num a) one_and_half))
  = Num (Qcmax 0 (m - a * Q2Qc (3 # 2))).
Proof. reflexivity. Qed.



End Scalars.

(** ** Spectral subtraction (steps 5 and 6) *)

Section Subtraction.
Context `{B : AudioBackend}.
Local Open Scope Qc_scope.

Lemma entry_stft_clean (stft : list (list complex))
    (noise_avg : list npfloat) i j z a :
  entry stft i j = Some z → noise_avg !! i = Some a →
  entry (stft_clean (clean_magnitude (librosa_magphase stft).1 noise_avg)
           (librosa_magphase stft).2) i j
  = Some (cmul
            (of_real (maximum (Num 0)
                        (fsub (magphase1 z).1 (fmul a one_and_half))))
            (magphase1 z).2).
Proof.
  intros Hz Ha. unfold stft_clean, mul_real_complex.
  rewrite entry_zip_with, entry_clean_magnitude, entry_magnitude, entry_phase.
  by rewrite Hz, Ha.
Qed.

(** The pipeline uses the profile estimated from the same magnitudes. *)
Lemma denoise_spectrum_entry (stft : list (list complex)) i j z a :
  entry stft i j = Some z →
  noise_magnitude_avg (librosa_magphase stft).1 !! i = Some a →
  entry (denoise_spectrum stft) i j
  = Some (cmul
            (of_real (maximum (Num 0)
                        (fsub (magphase1 z).1 (fmul a one_and_half))))
            (magphase1 z).2).
Proof. intros Hz Ha. by apply entry_stft_clean. Qed.




(** C2: for every bin [i] and frame [j], the subtracted magnitude is
    [max(0, m - 1.5 * noise[i])] for the original magnitude [m], and the
    rebuilt complex value is that magnitude times the phase factor of the
    original entry. *)
Theorem subtraction_formula (stft : list (list complex))
    (noise_avg : list npfloat) (i j : nat) (z : complex) (a : npfloat) :
  entry stft i j = Some z →
  noise_avg !! i = Some a →
  let magnitude := (librosa_magphase stft).1 in
  let phase := (librosa_magphase stft).2 in
  let m := (magphase1 z).1 in
  let c := maximum (Num 0) (fsub m (fmul a one_and_half)) in
  entry magnitude i j = Some m ∧
  entry (clean_magnitude magnitude noise_avg) i j = Some c ∧
  entry (stft_clean (clean_magnitude magnitude noise_avg) phase) i j
  = Some (cmul (of_real c) (magphase1 z).2) ∧
  (∀ mq aq : Qc,
      m = Num mq → a = Num aq →
      c = Num (Qcmax 0 (mq - aq * Q2Qc (3 # 2))) ∧
      0 <= Qcmax 0 (mq - aq * Q2Qc (3 # 2)) ∧
      mq - aq * Q2Qc (3 # 2) <= Qcmax 0 (mq - aq * Q2Qc (3 # 2))).
Proof.
  intros Hz Ha magnitude phase m c. repeat split.
  - unfold magnitude. by rewrite entry_magnitude, Hz.
  - unfold magnitude. by rewrite entry_clean_magnitude, entry_magnitude, Hz, Ha.
  - by apply entry_stft_clean.
  - subst c. rewrite H, H0. apply subtract_num.
  - apply Qcmax_l.
  - apply Qcmax_r.
Qed.

(** C6: when the magnitudes and the noise profile are numbers, every
    entry of the subtracted magnitude is a number and is at least zero. *)
Theorem subtracted_magnitude_nonneg (magnitude : list (list npfloat))
    (noise_avg : list npfloat) :
  Forall (Forall is_num) magnitude →
  Forall is_num noise_avg →
  Forall (Forall nonneg) (clean_magnitude magnitude noise_avg).
Proof.
  intros HM Ha. apply Forall_entry. intros i j x.
  rewrite entry_clean_magnitude.
  destruct (entry magnitude i j) as [m|] eqn:Hm; [|done].
  destruct (noise_avg !! i) as [a|] eqn:Hai; [|done].
  cbn [mbind option_bind]. intros [= <-].
  destruct (proj1 (Forall_entry _ _) HM i j m Hm) as [mq ->].
  destruct (proj1 (Forall_lookup _ _) Ha i a Hai) as [aq ->].
  eexists; split; [apply subtract_num | apply Qcmax_l].
Qed.


End Subtraction.

Section SubtractionExamples.
Import Fixture.
Local Open Scope Qc_scope.


Lemma subtraction_formula_witness :
  entry small_stft 0 0 = Some (of_real (Num (of_nat 4))) ∧
  small_noise !! 0%nat = Some (Num (of_nat 2)) ∧
  entry (clean_magnitude (librosa_magphase (B:=backend) small_stft).1
           small_noise) 0 0
  = Some (maximum (Num 0)
            (fsub (@magphase1 backend (of_real (Num (of_nat 4)))).1
               (fmul (Num (of_nat 2)) one_and_half))).
Proof.
  split; [reflexivity|]. split; [reflexivity|].
  exact (proj1 (proj2
    (subtraction_formula (B:=backend) small_stft small_noise 0 0
       (of_real (Num (of_nat 4))) (Num (of_nat 2)) eq_refl eq_refl))).
Defined.

Lemma subtracted_magnitude_nonneg_witness :
  Forall (Forall is_num) [[Num (of_nat 4); Num (of_nat 1)]; [Num (of_nat 2); Num 0]] ∧
  Forall is_num small_noise ∧
  Forall (Forall nonneg)
    (clean_magnitude
       [[Num (of_nat 4); Num (of_nat 1)]; [Num (of_nat 2); Num 0]]
       small_noise).
Proof.
  assert (HM : Forall (Forall is_num)
                 [[Num (of_nat 4); Num (of_nat 1)]; [Num (of_nat 2); Num 0]])
    by (repeat constructor; eexists; reflexivity).
  assert (Ha : Forall is_num small_noise)
    by (repeat constructor; eexists; reflexivity).
  exact (conj HM (conj Ha (subtracted_magnitude_nonneg _ _ HM Ha))).
Defined.

End SubtractionExamples.

(** ** The noise profile (step 4) *)

Section NoiseProfile.
Local Open Scope Qc_scope.

Lemma of_nat_pos (k : nat) : (1 ≤ k)%nat → 0 < of_nat k.
Proof.
  intros Hk. unfold of_nat, Qclt. cbn [this Q2Qc].
  rewrite !Qred_correct. unfold Qlt; simpl. lia.
Qed.

Lemma Qcinv_nonneg (x : Qc) : 0 <= x → 0 <= / x.
Proof.
  unfold Qcle, Qcinv. cbn [this Q2Qc]. rewrite !Qred_correct.
  apply Qinv_le_0_compat.
Qed.

Lemma Qcplus_nonneg (x y : Qc) : 0 <= x → 0 <= y → 0 <= x + y.
Proof.
  intros Hx Hy. replace 0 with (0 + 0) by ring.
  by apply Qcplus_le_compat.
Qed.

Lemma Qcmult_nonneg (x y : Qc) : 0 <= x → 0 <= y → 0 <= x * y.
Proof.
  intros Hx Hy. rewrite <- (Qcmult_0_l y). by apply Qcmult_le_compat_r.
Qed.

Lemma np_sum_nonneg (row : list npfloat) :
  Forall nonneg row → nonneg (np_sum row).
Proof.
  induction 1 as [|x row (q & -> & Hq) _ (s & Hs & Hs0)].
  - exists 0. split; [done | apply Qcle_refl].
  - exists (q + s). unfold np_sum in *. cbn [foldr]. rewrite Hs.
    split; [done | by apply Qcplus_nonneg].
Qed.

Lemma np_mean_nonempty (row : list npfloat) (s : Qc) :
  (1 ≤ length row)%nat → np_sum row = Num s →
  np_mean row = Num (s * / of_nat (length row)).
Proof.
  intros Hlen Hs. destruct row as [|x row]; [simpl in Hlen; lia|].
  unfold np_mean. by rewrite Hs.
Qed.

Lemma shape1_uniform {A : Type} (M : list (list A)) (n : nat) i row :
  Forall (fun r => length r = n) M → M !! i = Some row → shape1 M = n.
Proof.
  intros HM Hi. destruct M as [|r M]; [done|].
  by inversion HM.
Qed.

(** The model of [int(n * 0.1)] as [n / 10] agrees with double arithmetic
    for every frame count below [2^20] (over four hours of audio at this
    hop and rate). *)
Lemma int_tenth_double : double_tenth_upto 1048576 = true.
Proof. vm_compute. reflexivity. Qed.

(** With fewer than ten frames the slice of line 60 is empty and every
    mean of line 61 is NaN. *)
Lemma short_clip_profile_nan (magnitude : list (list npfloat)) :
  (shape1 magnitude < 10)%nat →
  Forall (eq NaN) (noise_magnitude_avg magnitude).
Proof.
  intros Hn. unfold noise_magnitude_avg, noise_frames, mean_axis1,
    columns_upto, int_tenth.
  rewrite Nat.div_small by done.
  apply Forall_fmap, Forall_fmap, Forall_forall. intros row _.
  reflexivity.
Qed.

(** C3, amended: with at least ten frames the profile is, bin by bin,
    the mean of the magnitudes of the first [frameCount // 10] frames:
    one value per bin, each a number that is at least zero. *)
Theorem noise_profile_floor (magnitude : list (list npfloat)) (n : nat) :
  (10 ≤ n)%nat →
  Forall (fun row => length row = n ∧ Forall nonneg row) magnitude →
  let k := (n / 10)%nat in
  (1 ≤ k)%nat ∧
  length (noise_magnitude_avg magnitude) = length magnitude ∧
  ∀ i row,
    magnitude !! i = Some row →
    ∃ s q : Qc,
      np_sum (take k row) = Num s ∧
      noise_magnitude_avg magnitude !! i = Some (Num q) ∧
      0 <= q ∧ q * of_nat k = s.
Proof.
  intros Hn HM k.
  assert (Hk : (1 ≤ k)%nat).
  { unfold k. change 1%nat with (10 / 10)%nat. by apply Nat.Div0.div_le_mono. }
  split; [done|]. split.
  { unfold noise_magnitude_avg, noise_frames, mean_axis1, columns_upto.
    by rewrite !length_fmap. }
  intros i row Hi.
  assert (Hshape : shape1 magnitude = n).
  { apply (shape1_uniform _ _ i row); [|done].
    eapply Forall_impl; [exact HM | by intros ? []]. }
  destruct (proj1 (Forall_lookup _ _) HM i row Hi) as [Hlen Hrow].
  assert (Hkn : (k ≤ n)%nat) by (unfold k; apply Nat.Div0.div_le_upper_bound; lia).
  destruct (np_sum_nonneg (take k row)) as (s & Hs & Hs0).
  { by apply Forall_take. }
  exists s, (s * / of_nat k). split; [done|].
  assert (Hlk : length (take k row) = k) by (rewrite length_take; lia).
  split.
  { unfold noise_magnitude_avg, noise_frames, mean_axis1, columns_upto,
      int_tenth.
    rewrite Hshape, !list_lookup_fmap, Hi. cbn [fmap option_fmap option_map].
    fold k. f_equal.
    rewrite (np_mean_nonempty _ s); [by rewrite Hlk | lia | done]. }
  pose proof (of_nat_pos k Hk) as Hpos.
  split.
  - apply Qcmult_nonneg; [done|]. by apply Qcinv_nonneg, Qclt_le_weak.
  - rewrite <- Qcmult_assoc, Qcmult_inv_l; [ring|].
    intros E. rewrite E in Hpos. by apply (Qclt_not_eq 0 0).
Qed.

Lemma noise_profile_floor_witness :
  (10 ≤ 20)%nat ∧
  Forall (fun row => length row = 20%nat ∧ Forall nonneg row)
    Fixture.twenty_frames ∧
  length (noise_magnitude_avg Fixture.twenty_frames)
  = length Fixture.twenty_frames.
Proof.
  assert (Hn : (10 ≤ 20)%nat) by lia.
  assert (HM : Forall (fun row => length row = 20%nat ∧ Forall nonneg row)
                 Fixture.twenty_frames).
  { repeat constructor;
      (eexists; split; [reflexivity | qc_closed]). }
  exact (conj Hn (conj HM
    (proj1 (proj2 (noise_profile_floor Fixture.twenty_frames 20 Hn HM))))).
Defined.

(** C3 as stated fails: with fifteen frames the code averages one frame,
    the statement two. *)
Lemma noise_profile_counterexample :
  shape1 Fixture.fifteen_frames = 15%nat ∧
  int_tenth 15 = 1%nat ∧
  spec_noise_frame_count 15 = 2%nat ∧
  noise_magnitude_avg Fixture.fifteen_frames = [Num (of_nat 2)] ∧
  spec_noise_profile Fixture.fifteen_frames = [Num (of_nat 3)] ∧
  noise_magnitude_avg Fixture.fifteen_frames
  ≠ spec_noise_profile Fixture.fifteen_frames.
Proof.
  assert (E1 : noise_magnitude_avg Fixture.fifteen_frames = [Num (of_nat 2)])
    by qc_closed.
  assert (E2 : spec_noise_profile Fixture.fifteen_frames = [Num (of_nat 3)])
    by qc_closed.
  repeat split; try done.
Qed.
End NoiseProfile.

(** ** Framing and lengths (steps 2 and 7) *)

Section Framing.
Context `{B : AudioBackend}.

Lemma shape1_denoise_spectrum (stft : list (list complex)) :
  shape1 (denoise_spectrum stft) = shape1 stft.
Proof.
  destruct stft as [|row stft]; [done|].
  unfold denoise_spectrum, librosa_magphase, stft_clean, mul_real_complex,
    clean_magnitude, maximum0, sub_column, noise_magnitude_avg, mean_axis1,
    noise_frames, columns_upto.
  cbn [fmap list_fmap zip_with shape1].
  rewrite length_zip_with, !length_fmap. lia.
Qed.

Lemma stft_shape (y : list npfloat) (stft : list (list complex)) :
  framing_contract →
  librosa_stft y N_FFT HOP_LENGTH = Ok stft →
  length stft = 513%nat ∧ shape1 stft = (1 + length y / 256)%nat.
Proof.
  intros [Hf _] Hs. destruct (Hf _ _ _ _ Hs) as [Hrows Hcols].
  split; [exact Hrows|].
  destruct stft as [|row stft]; [done|].
  by inversion Hcols.
Qed.

Lemma denoise_samples_length (y y' : list npfloat) :
  framing_contract →
  denoise_samples y = Ok y' →
  length y' = (256 * (length y / 256))%nat.
Proof.
  intros Hc. unfold denoise_samples.
  destruct (librosa_stft y N_FFT HOP_LENGTH) as [stft|e] eqn:Hs; [|done].
  cbn [bind]. intros Hi.
  destruct (stft_shape y stft Hc Hs) as [_ Hcols].
  destruct Hc as [_ Hinv]. rewrite (Hinv _ _ _ Hi).
  rewrite shape1_denoise_spectrum, Hcols. unfold HOP_LENGTH. f_equal. lia.
Qed.
End Framing.

Lemma fixture_framing : framing_contract (B:=Fixture.backend).
Proof.
  split.
  - intros y n_fft hop D. cbn [librosa_stft Fixture.backend].
    unfold Fixture.forward. destruct (forallb Fixture.finite y); [|done].
    intros E.
    assert (D = replicate (1 + n_fft / 2)
                  (Fixture.frame_entry y hop <$> seq 0 (1 + length y / hop)))
      as -> by congruence.
    split; [apply length_replicate|].
    apply Forall_replicate. by rewrite length_fmap, length_seq.
  - intros D hop y'. cbn [librosa_istft Fixture.backend].
    unfold Fixture.inverse. intros E.
    assert (y' = (fun n : nat =>
                    default (Num 0%Qc) (re <$> entry D 0 (n / hop)%nat))
                   <$> seq 0 (hop * (shape1 D - 1))) as -> by congruence.
    by rewrite length_fmap, length_seq.
Qed.

(** ** The entry point *)

Section EntryPoint.
Context `{B : AudioBackend}.

Lemma fallback_ok (w : world) (input dst e : string) (data : list byte) :
  fs w !! input = Some data → input ≠ dst →
  fallback w input dst e
  = (Ok dst,
     {| fs := <[dst := data]> (fs w);
        flashes := flashes w ++ [("Processing failed: " +:+ e, "error")] |}).
Proof.
  intros Hin Hne. unfold fallback, shutil_copy, flash; cbn [fs flashes].
  rewrite Hin. by destruct (decide (input = dst)).
Qed.

(** The copy of the handler raises when the input is not on disk. *)
Lemma fallback_missing_input (w : world) (input dst e : string) :
  fs w !! input = None →
  ∃ e' w', fallback w input dst e = (Raise e', w').
Proof.
  intros Hin. unfold fallback, shutil_copy, flash; cbn [fs flashes].
  rewrite Hin. eauto.
Qed.

Lemma load_ok (w : world) (input : string) (data : list byte)
    (y0 : list npfloat) (sr_native sr : N) :
  fs w !! input = Some data → audioread data = Ok (y0, sr_native) →
  librosa_load w input sr = Ok (resample y0 sr_native sr, sr).
Proof. intros Hin Hd. unfold librosa_load. by rewrite Hin, Hd. Qed.

(** Whatever rate the file has, the rate returned is the rate asked for. *)
Lemma load_rate (w : world) (input : string) (y : list npfloat) (sr sr' : N) :
  librosa_load w input sr = Ok (y, sr') → sr' = sr.
Proof.
  unfold librosa_load. destruct (fs w !! input) as [data|]; [|done].
  destruct (audioread data) as [[y0 r0]|]; [|done].
  cbn [bind]. by intros [= _ <-].
Qed.

(** The three ways through [ai_denoising_process]. *)
Lemma process_load_raises (w : world) (input u1 u2 e : string) :
  librosa_load w input 16000%N = Raise e →
  ai_denoising_process w input u1 u2
  = fallback w input (failed_filepath input u1) e.
Proof. intros H. unfold ai_denoising_process. by rewrite H. Qed.

Lemma process_core_raises (w : world) (input u1 u2 e : string) y sr :
  librosa_load w input 16000%N = Ok (y, sr) →
  denoise_samples y = Raise e →
  ai_denoising_process w input u1 u2
  = fallback w input (failed_filepath input u1) e.
Proof.
  intros H1 H2. unfold ai_denoising_process. rewrite H1. cbn [bind].
  by rewrite H2.
Qed.

Lemma process_core_ok (w : world) (input u1 u2 : string) y sr y' :
  librosa_load w input 16000%N = Ok (y, sr) →
  denoise_samples y = Ok y' →
  ai_denoising_process w input u1 u2
  = match wav_encode y' sr with
    | Ok encoded =>
        (Ok (clean_filepath u2),
         {| fs := <[clean_filepath u2 := encoded]> (fs w);
            flashes := flashes w |})
    | Raise e => fallback w input (clean_filepath u2) e
    end.
Proof.
  intros H1 H2. unfold ai_denoising_process, sf_write. rewrite H1.
  cbn [bind]. rewrite H2. cbn [bind].
  by destruct (wav_encode y' sr).
Qed.

(** With the input on disk under a name of its own, the call returns. *)
Lemma process_returns (w : world) (input u1 u2 : string) (data : list byte) :
  fs w !! input = Some data →
  input ≠ failed_filepath input u1 →
  input ≠ clean_filepath u2 →
  ∃ out w',
    ai_denoising_process w input u1 u2 = (Ok out, w') ∧
    is_Some (fs w' !! out) ∧ fs w' !! input = Some data.
Proof.
  intros Hin Hf Hc.
  assert (Hfb : ∀ dst e, input ≠ dst →
            ∃ out w', fallback w input dst e = (Ok out, w') ∧
                      is_Some (fs w' !! out) ∧ fs w' !! input = Some data).
  { intros dst e Hne. eexists _, _.
    split; [by apply (fallback_ok _ _ _ _ data)|]. cbn [fs].
    split; [rewrite lookup_insert_eq; eauto | by rewrite lookup_insert_ne]. }
  destruct (librosa_load w input 16000%N) as [[y sr]|e] eqn:Hl.
  - destruct (denoise_samples y) as [y'|e] eqn:Hd.
    + rewrite (process_core_ok _ _ _ _ _ _ _ Hl Hd).
      destruct (wav_encode y' sr) as [encoded|e]; [|by apply Hfb].
      eexists _, _. split; [done|]. cbn [fs].
      split; [rewrite lookup_insert_eq; eauto | by rewrite lookup_insert_ne].
    + rewrite (process_core_raises _ _ _ _ _ _ _ Hl Hd). by apply Hfb.
  - rewrite (process_load_raises _ _ _ _ _ Hl). by apply Hfb.
Qed.
End EntryPoint.

Section EntryPointClaims.
Context `{B : AudioBackend}.



(** C9: the samples processed are the decoded ones resampled to 16000,
    and [sf.write] receives the rate 16000; the file's own rate enters
    the resampling only. *)
Theorem output_rate_16k (w : world) (input u1 u2 : string)
    (data : list byte) (y0 y' : list npfloat) (sr_native : N) :
  fs w !! input = Some data →
  audioread data = Ok (y0, sr_native) →
  denoise_samples (resample y0 sr_native 16000%N) = Ok y' →
  librosa_load w input 16000%N
  = Ok (resample y0 sr_native 16000%N, 16000%N) ∧
  ai_denoising_process w input u1 u2
  = match wav_encode y' 16000%N with
    | Ok encoded =>
        (Ok (clean_filepath u2),
         {| fs := <[clean_filepath u2 := encoded]> (fs w);
            flashes := flashes w |})
    | Raise e => fallback w input (clean_filepath u2) e
    end.
Proof.
  intros Hin Hd Hs.
  pose proof (load_ok w input data y0 sr_native 16000%N Hin Hd) as Hl.
  split; [done|]. by apply (process_core_ok _ _ _ _ _ _ _ Hl Hs).
Qed.

(** C4, amended: the samples encoded are those the inverse transform
    returns, untruncated; there are [256 * (L // 256)] of them for [L]
    decoded samples, at most [L], and [L] only when 256 divides [L]. *)
Theorem output_length_untruncated (w : world) (input u1 u2 : string)
    (y y' : list npfloat) (sr : N) (encoded : list byte) :
  framing_contract →
  librosa_load w input 16000%N = Ok (y, sr) →
  denoise_samples y = Ok y' →
  wav_encode y' sr = Ok encoded →
  ai_denoising_process w input u1 u2
  = (Ok (clean_filepath u2),
     {| fs := <[clean_filepath u2 := encoded]> (fs w);
        flashes := flashes w |}) ∧
  length y' = (256 * (length y / 256))%nat ∧
  (length y' ≤ length y)%nat ∧
  (length y' = length y ↔ (length y mod 256 = 0)%nat).
Proof.
  intros Hc Hl Hd He.
  split; [by rewrite (process_core_ok _ _ _ _ _ _ _ Hl Hd), He|].
  pose proof (denoise_samples_length y y' Hc Hd) as Hlen.
  pose proof (Nat.div_mod_eq (length y) 256) as Hdm.
  split; [done|]. lia.
Qed.

(** C5, amended: a signal of [0 < L < 1024] samples gives a spectrogram
    of 513 bins and [1 + L // 256] frames (one to four, never none), and
    the samples that leave the pipeline number [256 * (L // 256)]: none
    when [L < 256]. *)
Theorem short_signal_frames (y : list npfloat) (stft : list (list complex)) :
  framing_contract →
  (0 < length y < 1024)%nat →
  librosa_stft y N_FFT HOP_LENGTH = Ok stft →
  length stft = 513%nat ∧
  shape1 stft = (1 + length y / 256)%nat ∧
  (1 ≤ shape1 stft ≤ 4)%nat ∧
  denoise_samples y = librosa_istft (denoise_spectrum stft) HOP_LENGTH ∧
  ∀ y', denoise_samples y = Ok y' →
        length y' = (256 * (length y / 256))%nat ∧
        ((length y < 256)%nat → y' = []).
Proof.
  intros Hc Hlen Hs.
  destruct (stft_shape y stft Hc Hs) as [Hrows Hcols].
  split; [done|]. split; [done|]. split.
  { rewrite Hcols.
    assert (length y / 256 < 4)%nat
      by (apply Nat.Div0.div_lt_upper_bound; lia).
    lia. }
  split; [unfold denoise_samples; by rewrite Hs|].
  intros y' Hd. pose proof (denoise_samples_length y y' Hc Hd) as Hy'.
  split; [done|]. intros Hshort.
  rewrite Nat.div_small in Hy' by done.
  destruct y'; [done | simpl in Hy'; lia].
Qed.
End EntryPointClaims.

Section EntryPointExamples.
Import Fixture.



Lemma output_rate_16k_witness :
  fs (disk 100) !! "uploads/in.wav" = Some (replicate 100 x01) ∧
  audioread (AudioBackend:=backend) (replicate 100 x01)
  = Ok (sample_of_byte <$> replicate 100 x01, 8000%N) ∧
  librosa_load (B:=backend) (disk 100) "uploads/in.wav" 16000%N
  = Ok (sample_of_byte <$> replicate 100 x01, 16000%N).
Proof.
  assert (H1 : fs (disk 100) !! "uploads/in.wav" = Some (replicate 100 x01))
    by reflexivity.
  assert (H2 : audioread (AudioBackend:=backend) (replicate 100 x01)
               = Ok (sample_of_byte <$> replicate 100 x01, 8000%N))
    by reflexivity.
  assert (H3 : denoise_samples (B:=backend)
                 (resample (AudioBackend:=backend)
                    (sample_of_byte <$> replicate 100 x01) 8000%N 16000%N)
               = Ok []) by (vm_compute; reflexivity).
  exact (conj H1 (conj H2
    (proj1 (output_rate_16k (B:=backend) (disk 100) "uploads/in.wav"
              "u1" "u2" _ _ _ _ H1 H2 H3)))).
Defined.

Lemma output_length_untruncated_witness :
  framing_contract (B:=backend) ∧
  ∃ y y' encoded,
    librosa_load (B:=backend) (disk 300) "uploads/in.wav" 16000%N
    = Ok (y, 16000%N) ∧
    denoise_samples (B:=backend) y = Ok y' ∧
    wav_encode (AudioBackend:=backend) y' 16000%N = Ok encoded ∧
    length y' = (256 * (length y / 256))%nat.
Proof.
  split; [exact fixture_framing|].
  eexists _, _, _.
  assert (H1 : librosa_load (B:=backend) (disk 300) "uploads/in.wav" 16000%N
               = Ok (sample_of_byte <$> replicate 300 x01, 16000%N))
    by reflexivity.
  assert (H2 : denoise_samples (B:=backend)
                 (sample_of_byte <$> replicate 300 x01)
               = Ok (replicate 256 NaN)) by (vm_compute; reflexivity).
  assert (H3 : wav_encode (AudioBackend:=backend) (replicate 256 NaN) 16000%N
               = Ok (byte_of_nat 62 :: byte_of_nat 128
                     :: replicate 256 x00)) by (vm_compute; reflexivity).
  split; [exact H1|]. split; [exact H2|]. split; [exact H3|].
  exact (proj1 (proj2
    (output_length_untruncated (B:=backend) (disk 300) "uploads/in.wav"
       "u1" "u2" _ _ _ _ fixture_framing H1 H2 H3))).
Defined.

(** C4 as stated fails: 2400 decoded samples give ten frames and 2304
    samples to encode. *)
Lemma output_length_counterexample :
  ∃ y y',
    librosa_load (B:=backend) (disk 2400) "uploads/in.wav" 16000%N
    = Ok (y, 16000%N) ∧
    denoise_samples (B:=backend) y = Ok y' ∧
    length y = 2400%nat ∧ length y' = 2304%nat ∧ length y' ≠ length y.
Proof.
  eexists _, _. split; [reflexivity|].
  split; [vm_compute; reflexivity|].
  split; [vm_compute; reflexivity|].
  split; [vm_compute; reflexivity|].
  vm_compute. discriminate.
Qed.

Lemma short_signal_frames_witness :
  framing_contract (B:=backend) ∧
  (0 < length (sample_of_byte <$> replicate 100 x01) < 1024)%nat ∧
  ∃ stft,
    librosa_stft (AudioBackend:=backend)
      (sample_of_byte <$> replicate 100 x01) N_FFT HOP_LENGTH = Ok stft ∧
    shape1 stft = (1 + length (sample_of_byte <$> replicate 100 x01) / 256)%nat.
Proof.
  assert (H1 : (0 < length (sample_of_byte <$> replicate 100 x01) < 1024)%nat)
    by (vm_compute; lia).
  split; [exact fixture_framing|]. split; [exact H1|].
  eexists.
  assert (H2 : librosa_stft (AudioBackend:=backend)
                 (sample_of_byte <$> replicate 100 x01) N_FFT HOP_LENGTH
               = Ok (replicate 513 [of_real (sample_of_byte x01)]))
    by (vm_compute; reflexivity).
  split; [exact H2|].
  exact (proj1 (proj2
    (short_signal_frames (B:=backend) _ _ fixture_framing H1 H2))).
Defined.

(** C5 as stated fails: a clip of 100 samples has one frame, the inverse
    transform returns no sample, and the file written holds the two rate
    bytes of the container and nothing else. *)
Lemma short_signal_counterexample :
  ∃ y w',
    librosa_load (B:=backend) (disk 100) "uploads/in.wav" 16000%N
    = Ok (y, 16000%N) ∧
    length y = 100%nat ∧
    denoise_samples (B:=backend) y = Ok [] ∧
    ai_denoising_process (B:=backend) (disk 100) "uploads/in.wav" "u1" "u2"
    = (Ok "uploads/denoised_u2_clean.wav", w') ∧
    fs w' !! "uploads/denoised_u2_clean.wav"
    = Some [byte_of_nat 62; byte_of_nat 128] ∧
    flashes w' = [].
Proof.
  eexists _, _. split; [reflexivity|].
  split; [vm_compute; reflexivity|].
  split; [vm_compute; reflexivity|].
  split; [vm_compute; reflexivity|].
  split; vm_compute; reflexivity.
Qed.
End EntryPointExamples.

(** ** The upload handler *)

Section Strings.
Lemma rpartition_None (c : ascii) (s : string) :
  rpartition c s = None ↔ contains c s = false.
Proof.
  induction s as [|a s IH]; [done|]. cbn [rpartition contains].
  destruct (rpartition c s) as [[h t]|].
  - destruct (decide (a = c)); [done|].
    split; [done|]. intros H. apply IH in H. done.
  - destruct (decide (a = c)); [done|]. split; [|done].
    intros _. by apply IH.
Qed.

Lemma contains_app (c : ascii) (h t : string) :
  contains c (h +:+ String c t) = true.
Proof.
  induction h as [|a h IH]; simpl.
  - destruct (decide (c = c)); [done | congruence].
  - by destruct (decide (a = c)).
Qed.

Lemma rpartition_Some (c : ascii) (s h t : string) :
  rpartition c s = Some (h, t) ↔ s = h +:+ String c t ∧ contains c t = false.
Proof.
  split.
  - revert h. induction s as [|a s IH]; intros h; [done|].
    cbn [rpartition].
    destruct (rpartition c s) as [[h' t']|] eqn:E.
    + intros [= <- <-]. destruct (IH h' eq_refl) as [-> Ht]. done.
    + destruct (decide (a = c)) as [->|]; [|done].
      intros [= <- <-]. split; [done | by apply rpartition_None].
  - intros [-> Ht]. induction h as [|a h IH]; simpl.
    + apply rpartition_None in Ht. rewrite Ht.
      destruct (decide (c = c)); [done | congruence].
    + by rewrite IH.
Qed.

Lemma allowed_file_cases (name : string) :
  (∃ ext, final_extension name ext ∧
          getitem (rsplit1 "." name) 1 = Ok ext ∧
          allowed_file name
          = Ok (bool_decide (lower ext ∈ ALLOWED_EXTENSIONS))) ∨
  (contains "." name = false ∧ allowed_file name = Ok false).
Proof.
  unfold allowed_file, rsplit1.
  destruct (contains "." name) eqn:Hc; [left | by right].
  destruct (rpartition "." name) as [[h t]|] eqn:Hp.
  - exists t. apply rpartition_Some in Hp as [-> Ht].
    split; [by exists h|]. done.
  - apply rpartition_None in Hp. congruence.
Qed.

Lemma final_extension_unique (name e1 e2 : string) :
  final_extension name e1 → final_extension name e2 → e1 = e2.
Proof.
  intros [s1 H1] [s2 H2].
  apply (rpartition_Some "." name s1 e1) in H1.
  apply (rpartition_Some "." name s2 e2) in H2. congruence.
Qed.

Lemma allowed_file_true (name : string) :
  allowed_file name = Ok true ↔
  ∃ ext, final_extension name ext ∧ lower ext ∈ ALLOWED_EXTENSIONS.
Proof.
  destruct (allowed_file_cases name) as [(ext & Hext & _ & ->) | [Hc ->]].
  - split.
    + intros [= H]. exists ext. split; [done|].
      by apply bool_decide_eq_true in H.
    + intros (ext' & Hext' & Hin).
      rewrite (final_extension_unique _ _ _ Hext Hext').
      f_equal. by apply bool_decide_eq_true.
  - split; [done|]. intros (ext & [stem [-> _]] & _).
    change ("." +:+ ext) with (String "." ext) in Hc.
    by rewrite contains_app in Hc.
Qed.

Lemma accepted_allowed (name : string) :
  accepted name ↔ allowed_file name = Ok true.
Proof.
  rewrite allowed_file_true. unfold accepted. split; [by intros (_ & _ & H)|].
  intros (ext & Hext & Hin). split; [|split; [|by exists ext]].
  - destruct Hext as [stem [-> _]]. by destruct stem.
  - destruct Hext as [stem [-> _]]. apply contains_app.
Qed.

Lemma accepted_dec (name : string) : accepted name ∨ ¬ accepted name.
Proof.
  rewrite accepted_allowed.
  destruct (allowed_file_cases name) as [(ext & _ & _ & ->) | [_ ->]].
  - destruct (bool_decide (lower ext ∈ ALLOWED_EXTENSIONS)); auto.
  - auto.
Qed.

(** The name of a saved upload starts with the text of a UUID, so it is
    neither of the names [ai_denoising_process] generates. *)
Lemma noisy_not_generated (u0 ext u1 u2 : string) :
  uuid_text u0 = true →
  let noisy := path_join UPLOAD_FOLDER (u0 +:+ "." +:+ ext) in
  noisy ≠ failed_filepath noisy u1 ∧ noisy ≠ clean_filepath u2.
Proof.
  intros Hu. cbn zeta. unfold uuid_text in Hu.
  apply andb_prop in Hu as [Hlen Hall].
  destruct u0 as [|a [|b [|c u]]]; try done.
  cbn [all_chars] in Hall.
  apply andb_prop in Hall as [_ Hall]. apply andb_prop in Hall as [_ Hall].
  apply andb_prop in Hall as [Hc _].
  split.
  - unfold failed_filepath.
    destruct (splitext _) as [x ext'].
    unfold path_join, UPLOAD_FOLDER. simpl.
    intros [= -> -> ->]. done.
  - unfold clean_filepath, path_join, UPLOAD_FOLDER. simpl.
    intros [= -> -> ->]. done.
Qed.
End Strings.

Section Upload.
Context `{B : AudioBackend}.

Lemma upload_rejected (w : world) (req : request) (file : FileStorage)
    (u0 u1 u2 : string) :
  files req !! "audioFile" = Some file →
  allowed_file (filename file) = Ok false ∨ filename file = "" →
  ∃ msg, upload_file w req u0 u1 u2 = (Ok RedirectIndex, flash w msg "error").
Proof.
  intros Hf Hr. unfold upload_file. rewrite Hf.
  destruct (decide (filename file = "")); [eauto|].
  destruct Hr as [-> | ?]; [eauto | done].
Qed.

Lemma upload_accepted (w : world) (req : request) (file : FileStorage)
    (u0 u1 u2 : string) :
  files req !! "audioFile" = Some file →
  uuid_text u0 = true →
  accepted (filename file) →
  saved_and_processed w file u1 u2 (upload_file w req u0 u1 u2).
Proof.
  intros Hf Hu Hacc.
  pose proof Hacc as (Hne & _ & _).
  apply accepted_allowed in Hacc.
  destruct (allowed_file_cases (filename file))
    as [(ext & _ & Hget & _) | [_ E]]; [|congruence].
  unfold upload_file. rewrite Hf.
  destruct (decide (filename file = "")); [done|].
  rewrite Hacc, Hget.
  set (noisy := path_join UPLOAD_FOLDER (u0 +:+ "." +:+ lower ext)).
  destruct (noisy_not_generated u0 (lower ext) u1 u2 Hu) as [Hn1 Hn2].
  fold noisy in Hn1, Hn2.
  assert (Hsaved : fs (save w file noisy) !! noisy = Some (stream file))
    by apply lookup_insert_eq.
  destruct (process_returns (save w file noisy) noisy u1 u2 (stream file)
              Hsaved Hn1 Hn2) as (den & w' & Hp & _ & _).
  exists noisy, den, w'. cbn zeta. rewrite Hp. done.
Qed.

(** C10: a submitted file is saved and processed exactly when its
    filename is not empty, has a dot, and its final extension in lower
    case is one of wav, mp3, flac, ogg; otherwise the handler answers with
    an error message and the disk is as before. *)
Theorem upload_gate (w : world) (req : request) (file : FileStorage)
    (u0 u1 u2 : string) :
  files req !! "audioFile" = Some file →
  uuid_text u0 = true →
  (saved_and_processed w file u1 u2 (upload_file w req u0 u1 u2)
   ↔ accepted (filename file)) ∧
  (¬ accepted (filename file) →
   ∃ msg,
     upload_file w req u0 u1 u2 = (Ok RedirectIndex, flash w msg "error") ∧
     fs (upload_file w req u0 u1 u2).2 = fs w).
Proof.
  intros Hf Hu.
  assert (Hrej : ¬ accepted (filename file) →
            ∃ msg, upload_file w req u0 u1 u2
                   = (Ok RedirectIndex, flash w msg "error")).
  { intros Hna. apply (upload_rejected w req file); [done|].
    destruct (allowed_file_cases (filename file))
      as [(ext & _ & _ & E) | [_ E]]; [|by left].
    destruct (bool_decide (lower ext ∈ ALLOWED_EXTENSIONS)) eqn:Hb;
      [|by left].
    exfalso. apply Hna. by apply accepted_allowed. }
  split; [split|].
  - intros (noisy & den & w' & _ & _ & Hout).
    destruct (accepted_dec (filename file)) as [|Hna]; [done|].
    destruct (Hrej Hna) as [msg E]. congruence.
  - by apply upload_accepted.
  - intros Hna. destruct (Hrej Hna) as [msg E]. exists msg.
    split; [done|]. by rewrite E.
Qed.
End Upload.

Section UploadExamples.
Import Fixture.

Example allowed_file_examples :
  allowed_file "take1.WAV" = Ok true ∧
  allowed_file "a.b.flac" = Ok true ∧
  allowed_file "notes.txt" = Ok false ∧
  allowed_file "wav" = Ok false ∧
  allowed_file "clip." = Ok false.
Proof. repeat split; vm_compute; reflexivity. Qed.

Example upload_wav_example :
  (upload_file (B:=backend) (disk 0) (submit "take1.WAV" [x01; x02])
     uuid_a "u1" "u2").1
  = Ok (RedirectResults "123e4567-e89b-12d3-a456-426614174000.wav"
          "denoised_u2_clean.wav").
Proof. vm_compute. reflexivity. Qed.

Example upload_txt_example :
  upload_file (B:=backend) (disk 0) (submit "notes.txt" [x01; x02])
    uuid_a "u1" "u2"
  = (Ok RedirectIndex,
     flash (disk 0)
       ("Invalid file type. Please upload a common audio " +:+
        "file type (wav, mp3, flac, ogg).") "error").
Proof. vm_compute. reflexivity. Qed.

Lemma upload_gate_witness :
  files (submit "take1.WAV" [x01; x02]) !! "audioFile"
  = Some {| filename := "take1.WAV"; stream := [x01; x02] |} ∧
  uuid_text uuid_a = true ∧
  (saved_and_processed (B:=backend) (disk 0)
     {| filename := "take1.WAV"; stream := [x01; x02] |} "u1" "u2"
     (upload_file (B:=backend) (disk 0) (submit "take1.WAV" [x01; x02])
        uuid_a "u1" "u2")
   ↔ accepted "take1.WAV").
Proof.
  assert (H1 : files (submit "take1.WAV" [x01; x02]) !! "audioFile"
               = Some {| filename := "take1.WAV"; stream := [x01; x02] |})
    by reflexivity.
  assert (H2 : uuid_text uuid_a = true) by reflexivity.
  exact (conj H1 (conj H2
    (proj1 (upload_gate (B:=backend) (disk 0) _ _ uuid_a "u1" "u2" H1 H2)))).
Defined.
End UploadExamples.

(** * Further properties of the code *)

(** ** The subtraction on numbers *)

Section Attenuation.
Local Open Scope Qc_scope.

Lemma Qcmax_0_zero (x : Qc) : Qcmax 0 x = 0 ↔ x <= 0.
Proof.
  split.
  - intros E. rewrite <- E. apply Qcmax_r.
  - intros Hx. destruct (Qcmax_cases 0 x) as [E|E]; [done|].
    rewrite E. apply Qcle_antisym; [done|]. rewrite <- E. apply Qcmax_l.
Qed.

Lemma Qcminus_le (m t : Qc) : 0 <= t → m - t <= m.
Proof.
  intros Ht. apply Qcle_minus_iff.
  by replace (m + - (m - t)) with t by ring.
Qed.

Lemma Qcminus_nonpos (m t : Qc) : m - t <= 0 ↔ m <= t.
Proof.
  rewrite (Qcle_minus_iff (m - t) 0), (Qcle_minus_iff m t).
  by replace (0 + - (m - t)) with (t + - m) by ring.
Qed.

Lemma three_halves_nonneg : 0 <= Q2Qc (3 # 2).
Proof. qc_closed. Qed.

(** Where the magnitude and the noise estimate are numbers that are not
    negative, the subtracted magnitude lies between zero and the original
    magnitude, and it is zero wherever the magnitude is at most 1.5 times
    the estimate. *)
Theorem subtraction_attenuates (magnitude : list (list npfloat))
    (noise_avg : list npfloat) (i j : nat) (m a : Qc) :
  entry magnitude i j = Some (Num m) →
  noise_avg !! i = Some (Num a) →
  0 <= m → 0 <= a →
  ∃ c : Qc,
    entry (clean_magnitude magnitude noise_avg) i j = Some (Num c) ∧
    0 <= c ∧ c <= m ∧ (m <= a * Q2Qc (3 # 2) → c = 0).
Proof.
  intros Hm Ha Hm0 Ha0.
  exists (Qcmax 0 (m - a * Q2Qc (3 # 2))).
  split; [by rewrite entry_clean_magnitude, Hm, Ha|].
  split; [apply Qcmax_l|]. split.
  - destruct (Qcmax_cases 0 (m - a * Q2Qc (3 # 2))) as [-> | ->]; [done|].
    apply Qcminus_le, Qcmult_nonneg; [done | apply three_halves_nonneg].
  - intros Hle. by apply Qcmax_0_zero, Qcminus_nonpos.
Qed.

Lemma subtraction_attenuates_witness :
  entry [[Num (of_nat 4); Num (of_nat 1)]; [Num (of_nat 2); Num 0]] 0 1
  = Some (Num (of_nat 1)) ∧
  Fixture.small_noise !! 0%nat = Some (Num (of_nat 2)) ∧
  0 <= of_nat 1 ∧ 0 <= of_nat 2 ∧
  of_nat 1 <= of_nat 2 * Q2Qc (3 # 2) ∧
  ∃ c : Qc,
    entry (clean_magnitude
             [[Num (of_nat 4); Num (of_nat 1)]; [Num (of_nat 2); Num 0]]
             Fixture.small_noise) 0 1 = Some (Num c) ∧
    0 <= c ∧ c <= of_nat 1 ∧ c = 0.
Proof.
  assert (H1 : 0 <= of_nat 1) by qc_closed.
  assert (H2 : 0 <= of_nat 2) by qc_closed.
  assert (H3 : of_nat 1 <= of_nat 2 * Q2Qc (3 # 2)) by qc_closed.
  split; [reflexivity|]. split; [reflexivity|]. split; [exact H1|].
  split; [exact H2|]. split; [exact H3|].
  destruct (subtraction_attenuates
              [[Num (of_nat 4); Num (of_nat 1)]; [Num (of_nat 2); Num 0]]
              Fixture.small_noise 0 1 (of_nat 1) (of_nat 2)
              eq_refl eq_refl H1 H2) as (c & Hc & H0 & Hle & Hz).
  exists c. split; [exact Hc|]. split; [exact H0|]. split; [exact Hle|].
  exact (Hz H3).
Defined.
End Attenuation.

(** ** The spectrum through steps 3 to 6 *)

Section Spectrum.
Context `{B : AudioBackend}.
Local Open Scope Qc_scope.

Lemma noise_avg_lookup (magnitude : list (list npfloat)) i row :
  magnitude !! i = Some row →
  noise_magnitude_avg magnitude !! i
  = Some (np_mean (take (int_tenth (shape1 magnitude)) row)).
Proof.
  intros Hi. unfold noise_magnitude_avg, noise_frames, mean_axis1, columns_upto.
  by rewrite !list_lookup_fmap, Hi.
Qed.

Lemma denoise_spectrum_lookup (stft : list (list complex)) i row :
  stft !! i = Some row →
  ∃ a,
    noise_magnitude_avg (librosa_magphase stft).1 !! i = Some a ∧
    denoise_spectrum stft !! i
    = Some (zip_with (fun r p => cmul (of_real r) p)
              (maximum (Num 0)
                 <$> ((fun m => fsub m (fmul a one_and_half))
                        <$> ((fun z => (magphase1 z).1) <$> row)))
              ((fun z => (magphase1 z).2) <$> row)).
Proof.
  intros Hi.
  assert (Hm : (librosa_magphase stft).1 !! i
               = Some ((fun z => (magphase1 z).1) <$> row))
    by (unfold librosa_magphase; cbn [fst]; by rewrite list_lookup_fmap, Hi).
  eexists. split; [by apply noise_avg_lookup|].
  unfold denoise_spectrum, stft_clean, mul_real_complex, clean_magnitude,
    maximum0, sub_column.
  change (librosa_magphase stft) with
    ((librosa_magphase stft).1, (librosa_magphase stft).2).
  cbv beta iota.
  rewrite lookup_zip_with, list_lookup_fmap, lookup_zip_with, Hm.
  rewrite list_lookup_fmap, (noise_avg_lookup _ _ _ Hm).
  unfold librosa_magphase; cbn [snd]. rewrite list_lookup_fmap, Hi.
  reflexivity.
Qed.

(** The subtraction keeps the shape of the spectrogram: the same number of
    bins, and in every bin the same number of frames. *)
Theorem denoise_spectrum_shape (stft : list (list complex)) :
  length (denoise_spectrum stft) = length stft ∧
  ∀ i row,
    stft !! i = Some row →
    ∃ row', denoise_spectrum stft !! i = Some row' ∧ length row' = length row.
Proof.
  assert (Hrows : ∀ i row,
            stft !! i = Some row →
            ∃ row', denoise_spectrum stft !! i = Some row' ∧
                    length row' = length row).
  { intros i row Hi. destruct (denoise_spectrum_lookup stft i row Hi)
      as (a & _ & ->).
    eexists. split; [done|]. rewrite length_zip_with, !length_fmap. lia. }
  split; [|done].
  destruct (Nat.lt_trichotomy (length (denoise_spectrum stft)) (length stft))
    as [Hlt | [Heq | Hgt]]; [exfalso | done | exfalso].
  - destruct (lookup_lt_is_Some_2 stft (length (denoise_spectrum stft)) Hlt)
      as [row Hrow].
    destruct (Hrows _ _ Hrow) as (row' & Hrow' & _).
    apply lookup_lt_Some in Hrow'. lia.
  - destruct (lookup_lt_is_Some_2 _ _ Hgt) as [row' Hrow'].
    unfold denoise_spectrum, stft_clean, mul_real_complex in Hrow'.
    destruct (librosa_magphase stft) as [mag ph] eqn:E.
    apply lookup_zip_with_Some in Hrow' as (_ & p & _ & _ & Hp).
    assert (ph = (librosa_magphase stft).2) as -> by (by rewrite E).
    unfold librosa_magphase in Hp; cbn [snd] in Hp.
    apply lookup_lt_Some in Hp. rewrite length_fmap in Hp. lia.
Qed.

Lemma nan_entry (m : npfloat) (p : complex) :
  cmul (of_real (maximum (Num 0) (fsub m (fmul NaN one_and_half)))) p
  = Complex NaN NaN.
Proof. by destruct m, p as [[] []]. Qed.

(** A clip of fewer than 2304 samples has fewer than ten frames: the slice
    of line 60 is empty, its mean is NaN, and every entry of the spectrum
    handed to the inverse transform is NaN in both parts. *)
Theorem short_clip_spectrum_nan (y : list npfloat) (stft : list (list complex))
    (i j : nat) :
  framing_contract →
  (length y < 2304)%nat →
  librosa_stft y N_FFT HOP_LENGTH = Ok stft →
  (i < 513)%nat → (j ≤ length y / 256)%nat →
  entry (denoise_spectrum stft) i j = Some (Complex NaN NaN).
Proof.
  intros Hc Hlen Hs Hi Hj.
  destruct (stft_shape y stft Hc Hs) as [Hrows Hcols].
  destruct Hc as [Hf _]. destruct (Hf _ _ _ _ Hs) as [_ Hall].
  destruct (lookup_lt_is_Some_2 stft i) as [row Hrow]; [lia|].
  pose proof (proj1 (Forall_lookup _ _) Hall i row Hrow) as Hlrow.
  unfold HOP_LENGTH in Hlrow.
  destruct (lookup_lt_is_Some_2 row j) as [z Hz]; [lia|].
  assert (Hshort : (shape1 (librosa_magphase stft).1 < 10)%nat).
  { unfold librosa_magphase; cbn [fst]. rewrite shape1_fmap, Hcols.
    assert (length y / 256 < 9)%nat
      by (apply Nat.Div0.div_lt_upper_bound; lia).
    lia. }
  destruct (denoise_spectrum_lookup stft i row Hrow) as (a & Ha & _).
  pose proof (short_clip_profile_nan _ Hshort) as Hnan.
  pose proof (proj1 (Forall_lookup _ _) Hnan i a Ha) as <-.
  rewrite (denoise_spectrum_entry stft i j z NaN);
    [by rewrite nan_entry | by unfold entry; rewrite Hrow | done].
Qed.

(** C7: below ten frames the phase is not preserved.  The slice of line 60
    is empty, the profile is NaN, and every entry of the rebuilt spectrum
    is NaN in both parts: it has no phase, whatever the original entry
    was. *)
Theorem phase_lost_below_ten_frames (stft : list (list complex))
    (i j : nat) (z : complex) :
  (shape1 stft < 10)%nat →
  entry stft i j = Some z →
  entry (denoise_spectrum stft) i j = Some (Complex NaN NaN) ∧
  ∀ u z', entry (denoise_spectrum stft) i j = Some z' → ¬ has_phase z' u.
Proof.
  intros Hshort Hz.
  assert (E : entry (denoise_spectrum stft) i j = Some (Complex NaN NaN)).
  { unfold entry in Hz. destruct (stft !! i) as [row|] eqn:Hrow; [|done].
    destruct (denoise_spectrum_lookup stft i row Hrow) as (a & Ha & _).
    assert (Hs : (shape1 (librosa_magphase stft).1 < 10)%nat)
      by (unfold librosa_magphase; cbn [fst]; by rewrite shape1_fmap).
    pose proof (short_clip_profile_nan _ Hs) as Hnan.
    pose proof (proj1 (Forall_lookup _ _) Hnan i a Ha) as <-.
    rewrite (denoise_spectrum_entry stft i j z NaN);
      [by rewrite nan_entry | by unfold entry; rewrite Hrow | done]. }
  split; [done|].
  intros u z'. rewrite E. intros [= <-] (r & a & b & _ & _ & _ & Hn).
  discriminate Hn.
Qed.

Lemma of_nat_succ (k : nat) : of_nat (S k) = of_nat k + 1.
Proof.
  apply Qc_is_canon. unfold of_nat, Qcplus. cbn [this Q2Qc].
  rewrite !Qred_correct, Nat2Z.inj_succ, <- Z.add_1_r, inject_Z_plus.
  reflexivity.
Qed.

Lemma np_sum_replicate (k : nat) (m : Qc) :
  np_sum (replicate k (Num m)) = Num (of_nat k * m).
Proof.
  induction k as [|k IH].
  - cbn. f_equal. apply Qc_is_canon. reflexivity.
  - cbn [replicate]. unfold np_sum in *. cbn [foldr]. rewrite IH.
    cbn. f_equal. rewrite of_nat_succ. ring.
Qed.

(** A bin whose magnitude is the same in every frame is removed entirely:
    with at least ten frames its subtracted row is zero throughout. *)
Theorem stationary_bin_removed (magnitude : list (list npfloat))
    (i n : nat) (m : Qc) :
  (10 ≤ n)%nat →
  0 <= m →
  shape1 magnitude = n →
  magnitude !! i = Some (replicate n (Num m)) →
  clean_magnitude magnitude (noise_magnitude_avg magnitude) !! i
  = Some (replicate n (Num 0)).
Proof.
  intros Hn Hm Hshape Hi.
  assert (Hk : (1 ≤ n / 10)%nat).
  { change 1%nat with (10 / 10)%nat. by apply Nat.Div0.div_le_mono. }
  assert (Hkn : (n / 10 ≤ n)%nat) by (apply Nat.Div0.div_le_upper_bound; lia).
  assert (Havg : noise_magnitude_avg magnitude !! i = Some (Num m)).
  { rewrite (noise_avg_lookup _ _ _ Hi), Hshape. unfold int_tenth.
    rewrite take_replicate, Nat.min_l by done. f_equal.
    rewrite (np_mean_nonempty _ (of_nat (n / 10) * m));
      [| by rewrite length_replicate | apply np_sum_replicate].
    rewrite length_replicate. f_equal.
    pose proof (of_nat_pos _ Hk) as Hpos.
    assert (Hnz : of_nat (n / 10) ≠ 0)
      by (intros E; rewrite E in Hpos; by apply (Qclt_not_eq 0 0)).
    rewrite (Qcmult_comm (of_nat (n / 10)) m), <- Qcmult_assoc.
    rewrite Qcmult_inv_r by done. ring. }
  unfold clean_magnitude, maximum0, sub_column.
  rewrite list_lookup_fmap, lookup_zip_with, Hi, list_lookup_fmap, Havg.
  cbn [fmap option_fmap option_map mbind option_bind]. f_equal.
  rewrite !fmap_replicate. f_equal.
  rewrite subtract_num. f_equal. apply Qcmax_0_zero, Qcminus_nonpos.
  rewrite <- (Qcmult_1_r m) at 1.
  rewrite !(Qcmult_comm m). apply Qcmult_le_compat_r; [qc_closed | done].
Qed.
End Spectrum.

(** ** What the entry point touches *)

Section EntryPointFrame.
Context `{B : AudioBackend}.

Lemma fallback_frame (w : world) (input dst e p : string) :
  p ≠ dst → fs (fallback w input dst e).2 !! p = fs w !! p.
Proof.
  intros Hp. unfold fallback, shutil_copy, flash; cbn [fs flashes].
  destruct (fs w !! input) as [data|]; [|done].
  destruct (decide (input = dst)); [done|].
  cbn [snd fs]. by rewrite lookup_insert_ne.
Qed.

Lemma fallback_out (w : world) (input dst e out : string) (w' : world) :
  fallback w input dst e = (Ok out, w') → out = dst.
Proof.
  unfold fallback, shutil_copy, flash; cbn [fs flashes].
  destruct (fs w !! input) as [data|]; [|done].
  destruct (decide (input = dst)); [done|]. by intros [= <- _].
Qed.

Lemma fallback_writes (w : world) (input dst e : string) :
  fs (fallback w input dst e).2 = fs w ∨
  ∃ data, fs (fallback w input dst e).2 = <[dst := data]> (fs w).
Proof.
  unfold fallback, shutil_copy, flash; cbn [fs flashes].
  destruct (fs w !! input) as [data|]; [|by left].
  destruct (decide (input = dst)); [by left|].
  right. by exists data.
Qed.

(** A path that is neither generated name holds what it held. *)
Lemma process_frame (w : world) (input u1 u2 p : string) :
  p ≠ failed_filepath input u1 →
  p ≠ clean_filepath u2 →
  fs (ai_denoising_process w input u1 u2).2 !! p = fs w !! p.
Proof.
  intros Hf Hc.
  destruct (librosa_load w input 16000%N) as [[y sr]|e] eqn:Hl.
  - destruct (denoise_samples y) as [y'|e] eqn:Hd.
    + rewrite (process_core_ok _ _ _ _ _ _ _ Hl Hd).
      destruct (wav_encode y' sr) as [encoded|e]; [|by apply fallback_frame].
      cbn [snd fs]. by rewrite lookup_insert_ne.
    + rewrite (process_core_raises _ _ _ _ _ _ _ Hl Hd). by apply fallback_frame.
  - rewrite (process_load_raises _ _ _ _ _ Hl). by apply fallback_frame.
Qed.

(** The entry point writes one file at most: the disk afterwards is the
    disk before, or the disk before with one path rebound, and that path
    is one of the two generated names.  Every other path holds what it
    held, the input among them when it is neither generated name. *)
Theorem process_writes_at_most_one (w : world) (input u1 u2 : string) :
  (fs (ai_denoising_process w input u1 u2).2 = fs w ∨
   ∃ out data,
     (out = failed_filepath input u1 ∨ out = clean_filepath u2) ∧
     fs (ai_denoising_process w input u1 u2).2 = <[out := data]> (fs w)) ∧
  (∀ p, p ≠ failed_filepath input u1 → p ≠ clean_filepath u2 →
        fs (ai_denoising_process w input u1 u2).2 !! p = fs w !! p) ∧
  (input = failed_filepath input u1 ∨ input = clean_filepath u2 ∨
   fs (ai_denoising_process w input u1 u2).2 !! input = fs w !! input).
Proof.
  split; [|split].
  - destruct (librosa_load w input 16000%N) as [[y sr]|e] eqn:Hl.
    + destruct (denoise_samples y) as [y'|e] eqn:Hd.
      * rewrite (process_core_ok _ _ _ _ _ _ _ Hl Hd).
        destruct (wav_encode y' sr) as [encoded|e].
        -- right. exists (clean_filepath u2), encoded. split; [by right|done].
        -- destruct (fallback_writes w input (clean_filepath u2) e)
             as [E | [data E]]; [by left|].
           right. exists (clean_filepath u2), data. split; [by right|done].
      * rewrite (process_core_raises _ _ _ _ _ _ _ Hl Hd).
        destruct (fallback_writes w input (failed_filepath input u1) e)
          as [E | [data E]]; [by left|].
        right. exists (failed_filepath input u1), data. split; [by left|done].
    + rewrite (process_load_raises _ _ _ _ _ Hl).
      destruct (fallback_writes w input (failed_filepath input u1) e)
        as [E | [data E]]; [by left|].
      right. exists (failed_filepath input u1), data. split; [by left|done].
  - intros p. apply process_frame.
  - destruct (decide (input = failed_filepath input u1)); [by left|].
    destruct (decide (input = clean_filepath u2)); [by right; left|].
    right; right. by apply process_frame.
Qed.

(** Where it returns, the location is one of the two generated names. *)
Lemma process_out_cases (w : world) (input u1 u2 out : string) (w' : world) :
  ai_denoising_process w input u1 u2 = (Ok out, w') →
  out = failed_filepath input u1 ∨ out = clean_filepath u2.
Proof.
  destruct (librosa_load w input 16000%N) as [[y sr]|e] eqn:Hl.
  - destruct (denoise_samples y) as [y'|e] eqn:Hd.
    + rewrite (process_core_ok _ _ _ _ _ _ _ Hl Hd).
      destruct (wav_encode y' sr) as [encoded|e].
      * intros [= <- _]. by right.
      * intros H%fallback_out. by right.
    + rewrite (process_core_raises _ _ _ _ _ _ _ Hl Hd).
      intros H%fallback_out. by left.
  - rewrite (process_load_raises _ _ _ _ _ Hl).
    intros H%fallback_out. by left.
Qed.

(** For a path that holds no file the call does not return: loading raises,
    the handler flashes the cause, its copy raises in turn, and that second
    exception leaves the function with the disk as it was. *)
Theorem process_missing_input_raises (w : world) (input u1 u2 : string) :
  fs w !! input = None →
  ai_denoising_process w input u1 u2
  = (Raise "No such file or directory",
     flash w "Processing failed: No such file or directory" "error").
Proof.
  intros Hin.
  assert (Hl : librosa_load w input 16000%N = Raise "No such file or directory")
    by (unfold librosa_load; by rewrite Hin).
  rewrite (process_load_raises _ _ _ _ _ Hl).
  unfold fallback, shutil_copy. cbn [flash fs]. by rewrite Hin.
Qed.
End EntryPointFrame.

Section EntryPointFrameExamples.
Import Fixture.

Lemma process_writes_at_most_one_witness :
  "uploads/in.wav" ≠ failed_filepath "uploads/in.wav" uuid_a ∧
  "uploads/in.wav" ≠ clean_filepath uuid_b ∧
  fs (ai_denoising_process (B:=backend) (disk 300) "uploads/in.wav"
        uuid_a uuid_b).2 !! "uploads/in.wav"
  = fs (disk 300) !! "uploads/in.wav".
Proof.
  assert (H1 : "uploads/in.wav" ≠ failed_filepath "uploads/in.wav" uuid_a)
    by (vm_compute; discriminate).
  assert (H2 : "uploads/in.wav" ≠ clean_filepath uuid_b)
    by (vm_compute; discriminate).
  exact (conj H1 (conj H2
    (proj1 (proj2 (process_writes_at_most_one (B:=backend) (disk 300)
                     "uploads/in.wav" uuid_a uuid_b))
       "uploads/in.wav" H1 H2))).
Defined.

Lemma process_missing_input_raises_witness :
  fs (disk 300) !! "uploads/gone.wav" = None ∧
  ai_denoising_process (B:=backend) (disk 300) "uploads/gone.wav" "u1" "u2"
  = (Raise "No such file or directory",
     flash (disk 300) "Processing failed: No such file or directory" "error").
Proof.
  assert (H1 : fs (disk 300) !! "uploads/gone.wav" = None) by reflexivity.
  exact (conj H1
    (process_missing_input_raises (B:=backend) (disk 300) "uploads/gone.wav"
       "u1" "u2" H1)).
Defined.

Lemma short_clip_spectrum_nan_witness :
  framing_contract (B:=backend) ∧
  (length (sample_of_byte <$> replicate 100 x01) < 2304)%nat ∧
  librosa_stft (AudioBackend:=backend)
    (sample_of_byte <$> replicate 100 x01) N_FFT HOP_LENGTH
  = Ok (replicate 513 [of_real (sample_of_byte x01)]) ∧
  entry (denoise_spectrum (B:=backend)
           (replicate 513 [of_real (sample_of_byte x01)])) 0 0
  = Some (Complex NaN NaN).
Proof.
  assert (H1 : (length (sample_of_byte <$> replicate 100 x01) < 2304)%nat)
    by (vm_compute; lia).
  assert (H2 : librosa_stft (AudioBackend:=backend)
                 (sample_of_byte <$> replicate 100 x01) N_FFT HOP_LENGTH
               = Ok (replicate 513 [of_real (sample_of_byte x01)]))
    by (vm_compute; reflexivity).
  assert (H3 : (0 < 513)%nat) by lia.
  assert (H4 : (0 ≤ length (sample_of_byte <$> replicate 100 x01) / 256)%nat)
    by lia.
  exact (conj fixture_framing (conj H1 (conj H2
    (short_clip_spectrum_nan (B:=backend) _ _ 0 0 fixture_framing H1 H2 H3 H4)))).
Defined.

Lemma phase_lost_below_ten_frames_witness :
  librosa_stft (AudioBackend:=backend)
    (sample_of_byte <$> replicate 2000 x01) N_FFT HOP_LENGTH
  = Ok (replicate 513 (replicate 8 (of_real (sample_of_byte x01)))) ∧
  (shape1 (replicate 513 (replicate 8 (of_real (sample_of_byte x01)))) < 10)%nat ∧
  entry (replicate 513 (replicate 8 (of_real (sample_of_byte x01)))) 7 3
  = Some (of_real (sample_of_byte x01)) ∧
  has_phase (of_real (sample_of_byte x01)) (of_real (Num 1%Qc)) ∧
  entry (denoise_spectrum (B:=backend)
           (replicate 513 (replicate 8 (of_real (sample_of_byte x01))))) 7 3
  = Some (Complex NaN NaN).
Proof.
  assert (H1 : librosa_stft (AudioBackend:=backend)
                 (sample_of_byte <$> replicate 2000 x01) N_FFT HOP_LENGTH
               = Ok (replicate 513 (replicate 8 (of_real (sample_of_byte x01)))))
    by (vm_compute; reflexivity).
  assert (H2 : (shape1 (replicate 513
                          (replicate 8 (of_real (sample_of_byte x01)))) < 10)%nat)
    by (vm_compute; lia).
  assert (H3 : entry (replicate 513 (replicate 8 (of_real (sample_of_byte x01))))
                 7 3 = Some (of_real (sample_of_byte x01))) by reflexivity.
  assert (H4 : has_phase (of_real (sample_of_byte x01)) (of_real (Num 1%Qc)))
    by (exists 1%Qc, 1%Qc, 0%Qc; repeat split; qc_closed).
  exact (conj H1 (conj H2 (conj H3 (conj H4
    (proj1 (phase_lost_below_ten_frames (B:=backend) _ 7 3 _ H2 H3)))))).
Defined.


Lemma stationary_bin_removed_witness :
  (10 ≤ 10)%nat ∧ (0 <= of_nat 3)%Qc ∧
  shape1 [replicate 10 (Num (of_nat 3))] = 10%nat ∧
  [replicate 10 (Num (of_nat 3))] !! 0%nat = Some (replicate 10 (Num (of_nat 3))) ∧
  clean_magnitude [replicate 10 (Num (of_nat 3))]
    (noise_magnitude_avg [replicate 10 (Num (of_nat 3))]) !! 0%nat
  = Some (replicate 10 (Num 0%Qc)).
Proof.
  assert (H1 : (10 ≤ 10)%nat) by lia.
  assert (H2 : (0 <= of_nat 3)%Qc) by qc_closed.
  exact (conj H1 (conj H2 (conj eq_refl (conj eq_refl
    (stationary_bin_removed [replicate 10 (Num (of_nat 3))] 0 10
       (of_nat 3) H1 H2 eq_refl eq_refl))))).
Defined.
End EntryPointFrameExamples.

(** ** File names *)

Section Names.

Lemma contains_append (c : ascii) (a b : string) :
  contains c (a +:+ b) = contains c a || contains c b.
Proof.
  induction a as [|x a IH]; simpl; [done|].
  by destruct (decide (x = c)).
Qed.

Lemma all_chars_contains (p : ascii → bool) (c : ascii) (s : string) :
  all_chars p s = true → p c = false → contains c s = false.
Proof.
  intros Hs Hc. induction s as [|x s IH]; [done|].
  cbn [all_chars] in Hs. apply andb_prop in Hs as [Hx Hs].
  cbn [contains]. destruct (decide (x = c)) as [->|]; [congruence | by apply IH].
Qed.

Lemma uuid_text_chars (u : string) : uuid_text u = true → all_chars uuid_char u = true.
Proof. unfold uuid_text. by intros [_ H]%andb_prop. Qed.

Lemma uuid_text_head (u : string) :
  uuid_text u = true → ∃ a rest, u = String a rest ∧ uuid_char a = true.
Proof.
  intros Hu. pose proof (uuid_text_chars u Hu) as Hall.
  destruct u as [|a rest]; [done|].
  cbn [all_chars] in Hall. apply andb_prop in Hall as [Ha _]. eauto.
Qed.

Lemma basename_join (d name : string) :
  contains "/" name = false → basename (path_join d name) = name.
Proof.
  intros Hn. unfold basename, path_join.
  change ("/" +:+ name) with (String "/" name).
  by rewrite (proj2 (rpartition_Some "/" _ d name) (conj eq_refl Hn)).
Qed.

Lemma splitext_dot (stem ext : string) :
  all_dots stem = false → contains "." ext = false →
  splitext (stem +:+ "." +:+ ext) = (stem, "." +:+ ext).
Proof.
  intros Hs He. unfold splitext.
  change ("." +:+ ext) with (String "." ext).
  by rewrite (proj2 (rpartition_Some "." _ stem ext) (conj eq_refl He)), Hs.
Qed.

Lemma allowed_extension_plain (ext : string) :
  ext ∈ ALLOWED_EXTENSIONS →
  contains "." ext = false ∧ contains "/" ext = false.
Proof.
  unfold ALLOWED_EXTENSIONS. rewrite !elem_of_union, !elem_of_singleton.
  intros [[[-> | ->] | ->] | ->]; by vm_compute.
Qed.

(** [allowed_file] never raises: the index into the split is evaluated
    only behind the test for a dot, where the split has two parts. *)
Theorem allowed_file_never_raises (name : string) :
  ∃ b : bool, allowed_file name = Ok b.
Proof.
  destruct (allowed_file_cases name) as [(ext & _ & _ & ->) | [_ ->]]; eauto.
Qed.

(** The verdict depends on the final extension only, and on it up to the
    case of its letters: the stem, earlier extensions and capitals make no
    difference. *)
Theorem allowed_file_extension_only (name1 name2 ext1 ext2 : string) :
  final_extension name1 ext1 →
  final_extension name2 ext2 →
  lower ext1 = lower ext2 →
  allowed_file name1 = allowed_file name2.
Proof.
  intros H1 H2 E.
  destruct (allowed_file_cases name1) as [(e1 & He1 & _ & ->) | [Hc _]].
  - destruct (allowed_file_cases name2) as [(e2 & He2 & _ & ->) | [Hc _]].
    + rewrite (final_extension_unique _ _ _ He1 H1),
        (final_extension_unique _ _ _ He2 H2), E. done.
    + destruct H2 as [stem [-> _]].
      change ("." +:+ ext2) with (String "." ext2) in Hc.
      by rewrite contains_app in Hc.
  - destruct H1 as [stem [-> _]].
    change ("." +:+ ext1) with (String "." ext1) in Hc.
    by rewrite contains_app in Hc.
Qed.

Lemma allowed_file_extension_only_witness :
  final_extension "take1.WAV" "WAV" ∧
  final_extension "a.b.wav" "wav" ∧
  lower "WAV" = lower "wav" ∧
  allowed_file "take1.WAV" = allowed_file "a.b.wav".
Proof.
  assert (H1 : final_extension "take1.WAV" "WAV") by (by exists "take1").
  assert (H2 : final_extension "a.b.wav" "wav") by (by exists "a.b").
  exact (conj H1 (conj H2 (conj eq_refl
    (allowed_file_extension_only _ _ _ _ H1 H2 eq_refl)))).
Defined.

(** The name for a failed run keeps the extension of the saved upload:
    for the upload [uploads/<uuid0>.<ext>] it is
    [uploads/failed_denoise_<uuid1>.<ext>]. *)
Theorem failed_name_keeps_extension (u0 u1 ext : string) :
  uuid_text u0 = true →
  contains "." ext = false →
  contains "/" ext = false →
  failed_filepath (path_join UPLOAD_FOLDER (u0 +:+ "." +:+ ext)) u1
  = path_join UPLOAD_FOLDER ("failed_denoise_" +:+ u1 +:+ "." +:+ ext).
Proof.
  intros Hu Hdot Hslash.
  pose proof (uuid_text_chars u0 Hu) as Hall.
  destruct (uuid_text_head u0 Hu) as (a & rest & E & Ha).
  assert (Hns : contains "/" (u0 +:+ "." +:+ ext) = false).
  { rewrite contains_append, (all_chars_contains uuid_char "/" u0) by done.
    change ("." +:+ ext) with (String "." ext). cbn [contains orb].
    by destruct (decide ("."%char = "/"%char)). }
  assert (Hnd : all_dots u0 = false).
  { rewrite E. cbn [all_dots]. destruct (decide (a = "."%char)) as [->|]; done. }
  unfold failed_filepath. rewrite basename_join by done.
  by rewrite splitext_dot.
Qed.

Lemma split_on_plain (c : ascii) (s : string) :
  contains c s = false → split_on c s = [s].
Proof.
  induction s as [|a s IH]; [done|]. cbn [contains split_on].
  destruct (decide (a = c)); [done|]. intros Hs. by rewrite IH.
Qed.

Lemma split_on_app (c : ascii) (h t : string) :
  contains c h = false →
  split_on c (h +:+ String c t) = h :: split_on c t.
Proof.
  induction h as [|a h IH]; cbn [contains].
  - intros _. change (split_on c (String c t) = "" :: split_on c t).
    cbn [split_on]. by destruct (decide (c = c)).
  - destruct (decide (a = c)) as [|Hne]; [done|]. intros Hh.
    change (split_on c (String a (h +:+ String c t))
            = String a h :: split_on c t).
    cbn [split_on]. destruct (decide (a = c)); [done|]. by rewrite IH.
Qed.

Lemma real_name_head (a : ascii) (rest : string) :
  a ≠ "."%char → real_name (String a rest) = true.
Proof.
  intros Ha. unfold real_name. apply negb_true_iff, bool_decide_eq_false.
  intros [E | [E | E]]; [done| |]; injection E as -> _; done.
Qed.

Lemma folder_path_canonical (name : string) :
  contains "/" name = false → real_name name = true →
  canonical_path (path_join UPLOAD_FOLDER name) = true.
Proof.
  intros Hs Hr. unfold canonical_path, path_join, UPLOAD_FOLDER.
  change ("uploads" +:+ "/" +:+ name) with ("uploads" +:+ String "/" name).
  rewrite split_on_app by done. rewrite split_on_plain by done.
  cbn [forallb]. by rewrite Hr.
Qed.

Lemma basename_plain (p : string) : contains "/" (basename p) = false.
Proof.
  unfold basename. destruct (rpartition "/" p) as [[h t]|] eqn:E.
  - by apply rpartition_Some in E as [_ Ht].
  - by apply rpartition_None.
Qed.

Lemma splitext_ext_plain (p : string) :
  contains "/" p = false → contains "/" (splitext p).2 = false.
Proof.
  unfold splitext. destruct (rpartition "." p) as [[h t]|] eqn:E; [|done].
  destruct (all_dots h); [done|]. cbn [snd].
  apply rpartition_Some in E as [-> _]. rewrite contains_append.
  by intros [_ H]%orb_false_elim.
Qed.

(** The path an upload is saved under is canonical, so the entry point is
    called on a canonical path. *)
Lemma upload_path_canonical (u0 ext : string) :
  uuid_text u0 = true →
  contains "/" ext = false →
  canonical_path (path_join UPLOAD_FOLDER (u0 +:+ "." +:+ ext)) = true.
Proof.
  intros Hu Hslash.
  pose proof (uuid_text_chars u0 Hu) as Hall.
  destruct (uuid_text_head u0 Hu) as (a & rest & E & Ha).
  apply folder_path_canonical.
  - rewrite contains_append, (all_chars_contains uuid_char "/" u0) by done.
    change ("." +:+ ext) with (String "." ext). cbn [contains orb].
    by destruct (decide ("."%char = "/"%char)).
  - rewrite E. apply real_name_head. by intros ->.
Qed.

(** So are the two names the entry point generates. *)
Lemma generated_paths_canonical (input u1 u2 : string) :
  uuid_text u1 = true → uuid_text u2 = true →
  canonical_path (failed_filepath input u1) = true ∧
  canonical_path (clean_filepath u2) = true.
Proof.
  intros H1 H2.
  pose proof (all_chars_contains uuid_char "/" u1 (uuid_text_chars u1 H1) eq_refl)
    as Hs1.
  pose proof (all_chars_contains uuid_char "/" u2 (uuid_text_chars u2 H2) eq_refl)
    as Hs2.
  split.
  - unfold failed_filepath.
    pose proof (splitext_ext_plain _ (basename_plain input)) as He.
    destruct (splitext (basename input)) as [stem ext]. cbn [snd] in He.
    apply folder_path_canonical; [|by apply real_name_head].
    change (contains "/" ("failed_denoise_" +:+ (u1 +:+ ext)) = false).
    by rewrite !contains_append, Hs1, He.
  - unfold clean_filepath.
    apply folder_path_canonical; [|by apply real_name_head].
    change (contains "/" ("denoised_" +:+ (u2 +:+ "_clean.wav")) = false).
    by rewrite !contains_append, Hs2.
Qed.

Lemma failed_name_keeps_extension_witness :
  uuid_text Fixture.uuid_a = true ∧
  contains "." "wav" = false ∧ contains "/" "wav" = false ∧
  failed_filepath (path_join UPLOAD_FOLDER (Fixture.uuid_a +:+ "." +:+ "wav")) "u1"
  = path_join UPLOAD_FOLDER ("failed_denoise_" +:+ "u1" +:+ "." +:+ "wav").
Proof.
  exact (conj eq_refl (conj eq_refl (conj eq_refl
    (failed_name_keeps_extension Fixture.uuid_a "u1" "wav"
       eq_refl eq_refl eq_refl)))).
Defined.
End Names.

(** ** The handlers together *)

Section Handlers.
Context `{B : AudioBackend}.

Lemma generated_prefix (name : string) :
  String.prefix "uploads/" (path_join UPLOAD_FOLDER name) = true.
Proof. by destruct name. Qed.

Lemma failed_prefix (input u1 : string) :
  String.prefix "uploads/" (failed_filepath input u1) = true.
Proof. unfold failed_filepath. destruct (splitext _). apply generated_prefix. Qed.

(** [upload_file] never raises: whatever the request, the handler answers
    with a redirect. *)
Theorem upload_never_raises (w : world) (req : request) (u0 u1 u2 : string) :
  ∃ r w', upload_file w req u0 u1 u2 = (Ok r, w').
Proof.
  unfold upload_file.
  destruct (files req !! "audioFile") as [file|]; [|eauto].
  destruct (decide (filename file = "")); [eauto|].
  destruct (allowed_file_cases (filename file))
    as [(ext & _ & Hget & ->) | [_ ->]]; [|eauto].
  destruct (bool_decide _); [|eauto].
  rewrite Hget.
  destruct (ai_denoising_process _ _ _ _) as [[den|e] w2]; eauto.
Qed.

(** Nothing outside the upload folder is written: a path that does not
    start with [uploads/] holds after the request what it held before. *)
Theorem upload_writes_only_uploads (w : world) (req : request)
    (u0 u1 u2 p : string) :
  String.prefix "uploads/" p = false →
  fs (upload_file w req u0 u1 u2).2 !! p = fs w !! p.
Proof.
  intros Hp. unfold upload_file.
  destruct (files req !! "audioFile") as [file|]; [|done].
  destruct (decide (filename file = "")); [done|].
  destruct (allowed_file_cases (filename file))
    as [(ext & _ & Hget & ->) | [_ ->]]; [|done].
  destruct (bool_decide _); [|done].
  rewrite Hget.
  set (noisy := path_join UPLOAD_FOLDER (u0 +:+ "." +:+ lower ext)).
  assert (Hproc : fs (ai_denoising_process (save w file noisy) noisy u1 u2).2 !! p
                  = fs w !! p).
  { rewrite process_frame.
    - cbn [save fs]. apply lookup_insert_ne. intros E.
      rewrite <- E in Hp. unfold noisy in Hp.
      by rewrite generated_prefix in Hp.
    - intros ->. by rewrite failed_prefix in Hp.
    - intros ->. unfold clean_filepath in Hp. by rewrite generated_prefix in Hp. }
  by destruct (ai_denoising_process _ _ _ _) as [[den|e] w2].
Qed.

(** A request without the [audioFile] part, or with an empty filename, is
    answered by a redirect to the index with the matching error message;
    nothing is saved. *)
Theorem upload_without_file (w : world) (req : request) (u0 u1 u2 : string) :
  (files req !! "audioFile" = None →
   upload_file w req u0 u1 u2
   = (Ok RedirectIndex, flash w "No file part" "error")) ∧
  (∀ file,
     files req !! "audioFile" = Some file → filename file = "" →
     upload_file w req u0 u1 u2
     = (Ok RedirectIndex, flash w "No selected file" "error")).
Proof.
  split.
  - intros Hf. unfold upload_file. by rewrite Hf.
  - intros file Hf Hn. unfold upload_file. rewrite Hf.
    by destruct (decide (filename file = "")).
Qed.

(** [results()] renders the page exactly when both names are present and
    not empty, and then with those names; otherwise it redirects. *)
Theorem results_needs_both_names (args : gmap string string) :
  (∀ n d, results args = Page n d →
          ∃ n' d', n = Some n' ∧ d = Some d' ∧ n' ≠ "" ∧ d' ≠ "" ∧
                   args !! "noisy_file" = Some n' ∧
                   args !! "denoised_file" = Some d') ∧
  (∀ n' d', args !! "noisy_file" = Some n' → args !! "denoised_file" = Some d' →
            n' ≠ "" → d' ≠ "" → results args = Page (Some n') (Some d')) ∧
  (results args = ToIndex ↔
   (args !! "noisy_file" = None ∨ args !! "noisy_file" = Some "" ∨
    args !! "denoised_file" = None ∨ args !! "denoised_file" = Some "")).
Proof.
  unfold results.
  destruct (args !! "noisy_file") as [[|a n']|];
    destruct (args !! "denoised_file") as [[|b d']|]; cbn.
  all: split; [|split]; try (intros ? ? ?; simplify_eq; eauto 10; fail).
  all: try (intros ? ? ? ? ? ?; simplify_eq; eauto; fail).
  all: try (split; [intros _; eauto 10 | done]).
  all: try (intros ? ? [= <- <-]; eexists _, _; repeat split; done).
  all: try (split; [done | intros [?|[?|[?|?]]]; done]).
Qed.

Lemma served_file (w : world) (name : string) (a : ascii) (rest : string)
    (data : list byte) :
  name = String a rest → a ≠ "."%char →
  contains "/" name = false →
  fs w !! path_join UPLOAD_FOLDER name = Some data →
  uploaded_file w name = Sent data.
Proof.
  intros -> Ha Hs Hf. unfold uploaded_file. rewrite Hs, Hf.
  rewrite !bool_decide_eq_false_2; [done | | ]; intros [= ? _]; done.
Qed.

Lemma follow_results (n d : string) (a b : ascii) (n' d' : string) :
  n = String a n' → d = String b d' →
  follow (RedirectResults n d) = Page (Some n) (Some d).
Proof.
  intros -> ->. unfold follow, results.
  rewrite lookup_insert_eq, lookup_insert_ne by done.
  by rewrite lookup_singleton_eq.
Qed.
End Handlers.

Lemma upload_writes_only_uploads_witness :
  String.prefix "uploads/" "etc/passwd" = false ∧
  fs (upload_file (B:=Fixture.backend) (Fixture.disk 0)
        (Fixture.submit "take1.WAV" [x01; x02]) Fixture.uuid_a "u1" "u2").2
    !! "etc/passwd"
  = fs (Fixture.disk 0) !! "etc/passwd".
Proof.
  exact (conj eq_refl
    (upload_writes_only_uploads (B:=Fixture.backend) (Fixture.disk 0)
       (Fixture.submit "take1.WAV" [x01; x02]) Fixture.uuid_a "u1" "u2"
       "etc/passwd" eq_refl)).
Defined.

Section RoundTrip.
Context `{B : AudioBackend}.

Lemma uuid_name_plain (u tail : string) :
  uuid_text u = true → contains "/" tail = false →
  contains "/" (u +:+ tail) = false ∧
  ∃ a rest, u +:+ tail = String a rest ∧ a ≠ "."%char.
Proof.
  intros Hu Ht. split.
  - by rewrite contains_append, (all_chars_contains uuid_char "/" u),
      Ht by (done || by apply uuid_text_chars).
  - destruct (uuid_text_head u Hu) as (a & rest & -> & Ha).
    exists a, (rest +:+ tail). split; [done|]. by intros ->.
Qed.

(** An accepted upload can be played back: the handler redirects to the
    results page, which renders with both names, and the download route
    then serves the upload byte for byte under the first name and a file
    under the second. *)
Theorem upload_then_download (w : world) (req : request) (file : FileStorage)
    (u0 u1 u2 : string) :
  files req !! "audioFile" = Some file →
  uuid_text u0 = true → uuid_text u1 = true → uuid_text u2 = true →
  accepted (filename file) →
  ∃ ext denoised_file w' out,
    final_extension (filename file) ext ∧
    upload_file w req u0 u1 u2
    = (Ok (RedirectResults (u0 +:+ "." +:+ lower ext) denoised_file), w') ∧
    follow (RedirectResults (u0 +:+ "." +:+ lower ext) denoised_file)
    = Page (Some (u0 +:+ "." +:+ lower ext)) (Some denoised_file) ∧
    uploaded_file w' (u0 +:+ "." +:+ lower ext) = Sent (stream file) ∧
    uploaded_file w' denoised_file = Sent out.
Proof.
  intros Hf Hu0 Hu1 Hu2 Hacc.
  pose proof Hacc as (Hne & _ & _).
  apply accepted_allowed in Hacc.
  destruct (allowed_file_cases (filename file))
    as [(ext & Hext & Hget & Hall) | [_ E]]; [|congruence].
  rewrite Hall in Hacc. injection Hacc as Hin.
  apply bool_decide_eq_true in Hin.
  destruct (allowed_extension_plain _ Hin) as [Hdot Hslash].
  set (name := u0 +:+ "." +:+ lower ext).
  set (noisy := path_join UPLOAD_FOLDER name).
  assert (Htail : contains "/" ("." +:+ lower ext) = false).
  { change ("." +:+ lower ext) with (String "." (lower ext)).
    cbn [contains]. by destruct (decide ("."%char = "/"%char)). }
  destruct (uuid_name_plain u0 ("." +:+ lower ext) Hu0 Htail)
    as (Hnslash & a & rest & Hname & Ha).
  fold name in Hnslash, Hname.
  destruct (noisy_not_generated u0 (lower ext) u1 u2 Hu0) as [Hn1 Hn2].
  fold name noisy in Hn1, Hn2.
  assert (Hsaved : fs (save w file noisy) !! noisy = Some (stream file))
    by apply lookup_insert_eq.
  destruct (process_returns (save w file noisy) noisy u1 u2 (stream file)
              Hsaved Hn1 Hn2) as (den & w' & Hp & [out Hout] & Hkept).
  assert (Hup : upload_file w req u0 u1 u2
                = (Ok (RedirectResults (basename noisy) (basename den)), w')).
  { unfold upload_file. rewrite Hf.
    destruct (decide (filename file = "")); [done|].
    rewrite Hall, (bool_decide_eq_true_2 _ Hin), Hget.
    fold name noisy. by rewrite Hp. }
  assert (Hbn : basename noisy = name) by (by apply basename_join).
  assert (Hden : ∃ dname c drest,
            den = path_join UPLOAD_FOLDER dname ∧ dname = String c drest ∧
            c ≠ "."%char ∧ contains "/" dname = false).
  { destruct (process_out_cases _ _ _ _ _ _ Hp) as [-> | ->].
    - unfold noisy, name.
      rewrite (failed_name_keeps_extension u0 u1 (lower ext)) by done.
      eexists _, _, _. split; [reflexivity|]. split; [reflexivity|].
      split; [done|].
      change ("failed_denoise_" +:+ u1 +:+ "." +:+ lower ext)
        with ("failed_denoise_" +:+ (u1 +:+ "." +:+ lower ext)).
      rewrite contains_append.
      by rewrite (proj1 (uuid_name_plain u1 _ Hu1 Htail)).
    - unfold clean_filepath.
      eexists _, _, _. split; [reflexivity|]. split; [reflexivity|].
      split; [done|].
      change ("denoised_" +:+ u2 +:+ "_clean.wav")
        with ("denoised_" +:+ (u2 +:+ "_clean.wav")).
      rewrite contains_append.
      by rewrite (proj1 (uuid_name_plain u2 "_clean.wav" Hu2 eq_refl)). }
  destruct Hden as (dname & c & drest & -> & Hd & Hc & Hdslash).
  rewrite Hbn, (basename_join _ _ Hdslash) in Hup.
  exists ext, dname, w', out. split; [done|]. split; [done|].
  split; [by apply (follow_results _ _ a c rest drest)|].
  split.
  - apply (served_file _ _ a rest); done.
  - by apply (served_file _ _ c drest).
Qed.
End RoundTrip.

Section HandlerExamples.
Import Fixture.

Lemma upload_then_download_witness :
  files (submit "take1.WAV" [x01; x02]) !! "audioFile"
  = Some {| filename := "take1.WAV"; stream := [x01; x02] |} ∧
  uuid_text uuid_a = true ∧ accepted "take1.WAV" ∧
  ∃ ext denoised_file w' out,
    upload_file (B:=backend) (disk 0) (submit "take1.WAV" [x01; x02])
      uuid_a uuid_a uuid_a
    = (Ok (RedirectResults (uuid_a +:+ "." +:+ lower ext) denoised_file), w') ∧
    uploaded_file w' (uuid_a +:+ "." +:+ lower ext) = Sent [x01; x02] ∧
    uploaded_file w' denoised_file = Sent out.
Proof.
  assert (H1 : files (submit "take1.WAV" [x01; x02]) !! "audioFile"
               = Some {| filename := "take1.WAV"; stream := [x01; x02] |})
    by reflexivity.
  assert (H2 : uuid_text uuid_a = true) by reflexivity.
  assert (H3 : accepted "take1.WAV").
  { split; [done|]. split; [reflexivity|]. exists "WAV".
    split; [by exists "take1"|]. by vm_compute. }
  split; [exact H1|]. split; [exact H2|]. split; [exact H3|].
  destruct (upload_then_download (B:=backend) (disk 0) _ _
              uuid_a uuid_a uuid_a H1 H2 H2 H2 H3)
    as (ext & den & w' & out & _ & Hup & _ & Hs1 & Hs2).
  exists ext, den, w', out. by repeat split.
Defined.

Lemma upload_without_file_witness :
  files {| files := ∅ |} !! "audioFile" = None ∧
  upload_file (B:=backend) (disk 0) {| files := ∅ |} "u0" "u1" "u2"
  = (Ok RedirectIndex, flash (disk 0) "No file part" "error").
Proof.
  exact (conj eq_refl
    (proj1 (upload_without_file (B:=backend) (disk 0) {| files := ∅ |}
              "u0" "u1" "u2") eq_refl)).
Defined.
End HandlerExamples.

Section Undecodable.
Context `{B : AudioBackend}.

(** An accepted upload that cannot be decoded comes back unchanged: the
    handler still redirects to the results page, the second name is the
    [failed_denoise_] one with the upload's extension, the download route
    serves the uploaded bytes under it, and the cause was flashed. *)
Theorem upload_undecodable_returns_original (w : world) (req : request)
    (file : FileStorage) (u0 u1 u2 e : string) :
  files req !! "audioFile" = Some file →
  uuid_text u0 = true → uuid_text u1 = true →
  accepted (filename file) →
  audioread (stream file) = Raise e →
  ∃ ext w',
    final_extension (filename file) ext ∧
    upload_file w req u0 u1 u2
    = (Ok (RedirectResults (u0 +:+ "." +:+ lower ext)
             ("failed_denoise_" +:+ u1 +:+ "." +:+ lower ext)), w') ∧
    uploaded_file w' ("failed_denoise_" +:+ u1 +:+ "." +:+ lower ext)
    = Sent (stream file) ∧
    uploaded_file w' (u0 +:+ "." +:+ lower ext) = Sent (stream file) ∧
    flashes w' = (flashes w ++ [("Processing failed: " +:+ e, "error")])%list.
Proof.
  intros Hf Hu0 Hu1 Hacc Hdec.
  apply accepted_allowed in Hacc.
  destruct (allowed_file_cases (filename file))
    as [(ext & Hext & Hget & Hall) | [_ E]]; [|congruence].
  rewrite Hall in Hacc. injection Hacc as Hin.
  apply bool_decide_eq_true in Hin.
  destruct (allowed_extension_plain _ Hin) as [Hdot Hslash].
  set (name := u0 +:+ "." +:+ lower ext).
  set (noisy := path_join UPLOAD_FOLDER name).
  set (fname := "failed_denoise_" +:+ u1 +:+ "." +:+ lower ext).
  assert (Htail : contains "/" ("." +:+ lower ext) = false).
  { change ("." +:+ lower ext) with (String "." (lower ext)).
    cbn [contains]. by destruct (decide ("."%char = "/"%char)). }
  destruct (uuid_name_plain u0 ("." +:+ lower ext) Hu0 Htail)
    as (Hnslash & a & rest & Hname & Ha).
  fold name in Hnslash, Hname.
  destruct (noisy_not_generated u0 (lower ext) u1 u2 Hu0) as [Hn1 _].
  fold name noisy in Hn1.
  assert (Hfailed : failed_filepath noisy u1 = path_join UPLOAD_FOLDER fname)
    by (by apply failed_name_keeps_extension).
  assert (Hfslash : contains "/" fname = false).
  { unfold fname.
    change ("failed_denoise_" +:+ u1 +:+ "." +:+ lower ext)
      with ("failed_denoise_" +:+ (u1 +:+ "." +:+ lower ext)).
    rewrite contains_append.
    by rewrite (proj1 (uuid_name_plain u1 _ Hu1 Htail)). }
  assert (Hsaved : fs (save w file noisy) !! noisy = Some (stream file))
    by apply lookup_insert_eq.
  assert (Hl : librosa_load (save w file noisy) noisy 16000%N = Raise e)
    by (unfold librosa_load; by rewrite Hsaved, Hdec).
  pose proof (process_load_raises (save w file noisy) noisy u1 u2 e Hl) as Hp.
  rewrite (fallback_ok _ _ _ _ (stream file) Hsaved Hn1), Hfailed in Hp.
  eexists ext, _. split; [done|]. split.
  { unfold upload_file. rewrite Hf.
    destruct (decide (filename file = "")) as [E|_].
    - destruct Hext as [stem [E' _]]. rewrite E in E'. by destruct stem.
    - rewrite Hall, (bool_decide_eq_true_2 _ Hin), Hget.
      fold name noisy. rewrite Hp.
      unfold noisy.
      rewrite (basename_join _ _ Hnslash), (basename_join _ _ Hfslash).
      reflexivity. }
  cbn [fs flashes save]. split; [|split; [|done]].
  - apply (served_file _ _ "f" ("ailed_denoise_" +:+ u1 +:+ "." +:+ lower ext));
      [done | done | done |].
    cbn [fs]. apply lookup_insert_eq.
  - apply (served_file _ _ a rest); [done | done | done |].
    cbn [fs]. fold noisy. rewrite lookup_insert_ne.
    + apply lookup_insert_eq.
    + intros E. apply Hn1. rewrite Hfailed. symmetry. exact E.
Qed.
End Undecodable.

Lemma upload_undecodable_returns_original_witness :
  files (Fixture.submit "take1.WAV" []) !! "audioFile"
  = Some {| filename := "take1.WAV"; stream := [] |} ∧
  uuid_text Fixture.uuid_a = true ∧ accepted "take1.WAV" ∧
  audioread (AudioBackend:=Fixture.backend) [] = Raise "Format not recognised" ∧
  ∃ ext w',
    upload_file (B:=Fixture.backend) (Fixture.disk 0)
      (Fixture.submit "take1.WAV" []) Fixture.uuid_a Fixture.uuid_a "u2"
    = (Ok (RedirectResults (Fixture.uuid_a +:+ "." +:+ lower ext)
             ("failed_denoise_" +:+ Fixture.uuid_a +:+ "." +:+ lower ext)), w') ∧
    uploaded_file w'
      ("failed_denoise_" +:+ Fixture.uuid_a +:+ "." +:+ lower ext) = Sent [].
Proof.
  assert (H1 : files (Fixture.submit "take1.WAV" []) !! "audioFile"
               = Some {| filename := "take1.WAV"; stream := [] |})
    by reflexivity.
  assert (H2 : uuid_text Fixture.uuid_a = true) by reflexivity.
  assert (H3 : accepted "take1.WAV").
  { split; [done|]. split; [reflexivity|]. exists "WAV".
    split; [by exists "take1"|]. by vm_compute. }
  assert (H4 : audioread (AudioBackend:=Fixture.backend) []
               = Raise "Format not recognised") by reflexivity.
  split; [exact H1|]. split; [exact H2|]. split; [exact H3|].
  split; [exact H4|].
  destruct (upload_undecodable_returns_original (B:=Fixture.backend)
              (Fixture.disk 0) _ _ Fixture.uuid_a Fixture.uuid_a "u2" _
              H1 H2 H2 H3 H4) as (ext & w' & _ & Hup & Hs & _).
  by exists ext, w'.
Defined.

Lemma results_needs_both_names_witness :
  results {[ "noisy_file" := "a.wav"; "denoised_file" := "b.wav" ]}
  = Page (Some "a.wav") (Some "b.wav").
Proof.
  exact (proj1 (proj2
    (results_needs_both_names
       {[ "noisy_file" := "a.wav"; "denoised_file" := "b.wav" ]}))
    "a.wav" "b.wav" eq_refl eq_refl
    ltac:(discriminate) ltac:(discriminate)).
Defined.

(** ** The frame count of line 60 in double arithmetic *)

Section DoubleTenth.
Local Open Scope Z_scope.

(** One step of [double_tenth_upto]. *)
Definition tenth_step (st : int * bool) : int * bool :=
  (Uint63.add (fst st) 1%uint63, andb (snd st) (double_tenth_agrees (fst st))).

Lemma of_Z_succ (a : Z) :
  Uint63.add (Uint63.of_Z a) 1%uint63 = Uint63.of_Z (a + 1).
Proof.
  apply Uint63.to_Z_inj.
  rewrite Uint63.add_spec, !Uint63.of_Z_spec, Uint63.to_Z_1.
  by rewrite Zplus_mod_idemp_l.
Qed.

Lemma tenth_iter (count : positive) :
  fst (Pos.iter tenth_step (0%uint63, true) count) = Uint63.of_Z (Z.pos count) ∧
  (snd (Pos.iter tenth_step (0%uint63, true) count) = true →
   ∀ k, 0 ≤ k < Z.pos count → double_tenth_agrees (Uint63.of_Z k) = true).
Proof.
  induction count as [|count [IH1 IH2]] using Pos.peano_ind.
  - split; [reflexivity|]. cbn [Pos.iter tenth_step fst snd andb].
    intros H k Hk. by replace k with 0 by lia.
  - rewrite Pos.iter_succ. unfold tenth_step at 1 3. cbn [fst snd].
    rewrite IH1, of_Z_succ, Pos2Z.inj_succ. split; [done|].
    intros [Hs Ha]%andb_prop k Hk.
    destruct (decide (k = Z.pos count)) as [->|]; [done|].
    apply IH2; [done | lia].
Qed.

Lemma double_tenth_upto_steps (count : positive) :
  double_tenth_upto count = snd (Pos.iter tenth_step (0%uint63, true) count).
Proof. reflexivity. Qed.

Lemma div10_of_nat (n : nat) :
  Z.of_nat n < 1048576 →
  Uint63.div (Uint63.of_Z (Z.of_nat n)) 10%uint63
  = Uint63.of_Z (Z.of_nat (int_tenth n)).
Proof.
  intros Hn. assert (Hw : 1048576 < wB) by reflexivity.
  assert (Hq : (n / 10 ≤ n)%nat) by (apply Nat.Div0.div_le_upper_bound; lia).
  assert (Hw' : wB = 9223372036854775808) by reflexivity.
  apply Uint63.to_Z_inj.
  rewrite Uint63.div_spec, !Uint63.of_Z_spec. unfold int_tenth.
  rewrite !Z.mod_small by lia.
  change (to_Z 10%uint63) with 10.
  by rewrite (Nat2Z.inj_div n 10).
Qed.

(** For every frame count [n] below [2^20] the double product [n * 0.1]
    lies between [n // 10] and [n // 10 + 1] (the upper bound excluded),
    so [int(n * 0.1)] is [n // 10]: rounding never moves the count of
    noise frames. *)
Theorem int_tenth_is_double_truncation (n : nat) :
  Z.of_nat n < 1048576 →
  let x := PrimFloat.mul (PrimFloat.of_uint63 (Uint63.of_Z (Z.of_nat n)))
             0x1.999999999999ap-4%float in
  PrimFloat.leb
    (PrimFloat.of_uint63 (Uint63.of_Z (Z.of_nat (int_tenth n)))) x = true ∧
  PrimFloat.ltb x
    (PrimFloat.of_uint63 (Uint63.of_Z (Z.of_nat (int_tenth n + 1)))) = true.
Proof.
  intros Hn x.
  pose proof int_tenth_double as Hall.
  rewrite double_tenth_upto_steps in Hall.
  pose proof (proj2 (tenth_iter 1048576) Hall (Z.of_nat n)) as Ha.
  unfold double_tenth_agrees in Ha.
  rewrite (div10_of_nat n Hn), of_Z_succ in Ha.
  apply andb_prop in Ha as [H1 H2]; [|lia].
  split; [exact H1|].
  by rewrite Nat2Z.inj_add.
Qed.

Lemma int_tenth_is_double_truncation_witness :
  Z.of_nat 15 < 1048576 ∧
  PrimFloat.leb
    (PrimFloat.of_uint63 (Uint63.of_Z (Z.of_nat (int_tenth 15))))
    (PrimFloat.mul (PrimFloat.of_uint63 (Uint63.of_Z (Z.of_nat 15)))
       0x1.999999999999ap-4%float) = true.
Proof.
  assert (H : Z.of_nat 15 < 1048576) by reflexivity.
  exact (conj H (proj1 (int_tenth_is_double_truncation 15 H))).
Defined.
End DoubleTenth.
